(** * csv2md: CSV to Markdown table conversion

    A shallow embedding of [csv2md.py] and a verification of its
    specification.  The file has four parts:

    - [Py]: the fragment of the Python runtime the program relies on
      (exceptions, [str.join], list slicing, [io.StringIO] line iteration);
    - [Csv]: the reader of Python's standard [csv] module, which the
      program calls: the state machine of CPython's [Modules/_csv.c]
      (version 3.11), specialised to the default dialect, the only one
      [csv2md.py] ever uses apart from the delimiter;
    - [Csv2md]: the functions [read_csv_file] and [csv_to_md_table] of
      [csv2md.py] themselves;
    - [Cli]: the function [main] of [csv2md.py], in an environment that
      decides what parsing the command line, reading, writing and printing
      give;

    followed by the theorems.

    Python strings are modelled by [string]; a character is an [ascii], so the
    model covers the code points 0 to 255.  The reader only ever distinguishes
    four characters (delimiter, double quote, carriage return, line feed). *)

From Stdlib Require Import String Ascii List NArith Bool Arith Lia.
Import ListNotations.

Local Open Scope list_scope.
Local Open Scope string_scope.

(* ===================================================================== *)
(** ** Python runtime fragment *)
(* ===================================================================== *)

Module Py.

(** Exception classes that occur in the program.  [IOError] is the name
    used by [read_csv_file]; [OtherError] stands for any other subclass
    of [Exception] raised by the environment. *)
Inductive exn_class : Type :=
| TypeError
| CsvError
| IOError
| OtherError (name : string).

(** An exception object; [str] is what [f"{e}"] formats. *)
Record exn : Type := mkExn { cls : exn_class; str : string }.

(** The result of running a piece of Python code. *)
Inductive outcome (A : Type) : Type :=
| Returns (a : A)
| Raises (e : exn).
Arguments Returns {A} a.
Arguments Raises {A} e.

Definition bind {A B : Type} (c : outcome A) (k : A -> outcome B) : outcome B :=
  match c with
  | Returns a => k a
  | Raises e => Raises e
  end.

(** [try: c except Exception as e: handler e] *)
Definition try_except {A : Type} (c : outcome A) (handler : exn -> outcome A)
  : outcome A :=
  match c with
  | Returns a => Returns a
  | Raises e => handler e
  end.

Definition LF : ascii := "010"%char.
Definition CR : ascii := "013"%char.
Definition DQUOTE : ascii := "034"%char.

(** One-character strings, for building test inputs. *)
Definition nl : string := String LF EmptyString.
Definition dq : string := String DQUOTE EmptyString.

(** [sep.join(cells)] *)
Definition join (sep : string) (cells : list string) : string :=
  String.concat sep cells.

(** [[x] * n] *)
Definition list_mul {A : Type} (x : A) (n : nat) : list A := repeat x n.

(** [l[:n]] for [0 <= n] and [l[1:]] *)
Definition slice_to {A : Type} (n : nat) (l : list A) : list A := firstn n l.
Definition slice_from_1 {A : Type} (l : list A) : list A := tl l.

(** Iterating over [io.StringIO(s)]: with the default [newline] argument
    of [StringIO] only line feeds end a line, line endings are kept, and
    no translation takes place.  The last line may lack its line feed. *)
Fixpoint readlines (s : string) : list string :=
  match s with
  | EmptyString => []
  | String c s' =>
      if Ascii.eqb c LF then String c EmptyString :: readlines s'
      else match readlines s' with
           | [] => [String c EmptyString]
           | l :: ls => String c l :: ls
           end
  end.

(** Reading a file opened in text mode with the default [newline]
    argument: every carriage return followed by a line feed, and every
    other carriage return, is read as one line feed. *)
Fixpoint universal_newlines (s : string) : string :=
  match s with
  | EmptyString => EmptyString
  | String c s' =>
      if Ascii.eqb c CR
      then match s' with
           | String c2 s'' =>
               if Ascii.eqb c2 LF
               then String LF (universal_newlines s'')
               else String LF (universal_newlines s')
           | EmptyString => String LF EmptyString
           end
      else String c (universal_newlines s')
  end.

End Py.

Export Py.

Declare Scope py_scope.
Delimit Scope py_scope with py.
Notation "x <- c ;; k" := (bind c (fun x => k))
  (at level 61, c at next level, right associativity) : py_scope.
Local Open Scope py_scope.

(* ===================================================================== *)
(** ** The reader of the csv module *)
(* ===================================================================== *)

Module Csv.

(** The default dialect: the quote character is the double quote, a quote
    inside a quoted field is written doubled, there is no escape character,
    spaces after a delimiter are kept, quoting is minimal and the reader is
    not strict.  Only the delimiter is chosen by the caller. *)

(** [csv.field_size_limit()], 128 KiB by default. *)
Definition field_limit : N := 131072.

(** The parser states that are reachable with the default dialect.  The
    three escape states of [_csv.c] need an [escapechar], which is [None]
    by default. *)
Inductive ParserState : Type :=
| START_RECORD
| START_FIELD
| IN_FIELD
| IN_QUOTED_FIELD
| QUOTE_IN_QUOTED_FIELD
| EAT_CRNL.

Definition ParserState_eqb (a b : ParserState) : bool :=
  match a, b with
  | START_RECORD, START_RECORD
  | START_FIELD, START_FIELD
  | IN_FIELD, IN_FIELD
  | IN_QUOTED_FIELD, IN_QUOTED_FIELD
  | QUOTE_IN_QUOTED_FIELD, QUOTE_IN_QUOTED_FIELD
  | EAT_CRNL, EAT_CRNL => true
  | _, _ => false
  end.

(** What [parse_process_char] is fed: a character of the current line, or
    the end-of-line marker that [Reader_iternext] sends after each line. *)
Inductive Py_UCS4 : Type :=
| Ch (c : ascii)
| EOL.

(** The mutable part of a reader object: parser state, the fields of the
    record under construction, and the field buffer. *)
Record ReaderObj : Type := mkReader {
  state : ParserState;
  fields : list string;
  field : string
}.

Definition set_state (self : ReaderObj) (st : ParserState) : ReaderObj :=
  mkReader st (fields self) (field self).

Definition parse_reset : ReaderObj := mkReader START_RECORD [] EmptyString.

(** With [QUOTE_MINIMAL] the buffer is appended to the record as a string. *)
Definition parse_save_field (self : ReaderObj) : ReaderObj :=
  mkReader (state self) (fields self ++ [field self])%list EmptyString.

Definition field_limit_error : exn :=
  mkExn CsvError "field larger than field limit (131072)".

Definition parse_add_char (self : ReaderObj) (c : ascii) : outcome ReaderObj :=
  if (field_limit <=? N.of_nat (String.length (field self)))%N
  then Raises field_limit_error
  else Returns (mkReader (state self) (fields self)
                         (field self ++ String c EmptyString)).

Definition is_newline (c : ascii) : bool := Ascii.eqb c LF || Ascii.eqb c CR.

Definition newline_error : exn :=
  mkExn CsvError
    "new-line character seen in unquoted field - do you need to open the file in universal-newline mode?".

(** The body of [case START_FIELD]; [case START_RECORD] falls through
    to it for an ordinary character. *)
Definition start_field (delimiter : ascii) (self : ReaderObj) (c : Py_UCS4)
  : outcome ReaderObj :=
  match c with
  | EOL => Returns (set_state (parse_save_field self) START_RECORD)
  | Ch ch =>
      if is_newline ch then Returns (set_state (parse_save_field self) EAT_CRNL)
      else if Ascii.eqb ch DQUOTE then Returns (set_state self IN_QUOTED_FIELD)
      else if Ascii.eqb ch delimiter then Returns (parse_save_field self)
      else self' <- parse_add_char self ch ;;
           Returns (set_state self' IN_FIELD)
  end.

Definition parse_process_char (delimiter : ascii) (self : ReaderObj) (c : Py_UCS4)
  : outcome ReaderObj :=
  match state self with
  | START_RECORD =>
      match c with
      | EOL => Returns self
      | Ch ch =>
          if is_newline ch then Returns (set_state self EAT_CRNL)
          else start_field delimiter (set_state self START_FIELD) c
      end
  | START_FIELD => start_field delimiter self c
  | IN_FIELD =>
      match c with
      | EOL => Returns (set_state (parse_save_field self) START_RECORD)
      | Ch ch =>
          if is_newline ch then Returns (set_state (parse_save_field self) EAT_CRNL)
          else if Ascii.eqb ch delimiter
               then Returns (set_state (parse_save_field self) START_FIELD)
          else parse_add_char self ch
      end
  | IN_QUOTED_FIELD =>
      match c with
      | EOL => Returns self
      | Ch ch =>
          if Ascii.eqb ch DQUOTE then Returns (set_state self QUOTE_IN_QUOTED_FIELD)
          else parse_add_char self ch
      end
  | QUOTE_IN_QUOTED_FIELD =>
      match c with
      | EOL => Returns (set_state (parse_save_field self) START_RECORD)
      | Ch ch =>
          if Ascii.eqb ch DQUOTE
          then self' <- parse_add_char self ch ;;
               Returns (set_state self' IN_QUOTED_FIELD)
          else if Ascii.eqb ch delimiter
               then Returns (set_state (parse_save_field self) START_FIELD)
          else if is_newline ch
               then Returns (set_state (parse_save_field self) EAT_CRNL)
          else self' <- parse_add_char self ch ;;
               Returns (set_state self' IN_FIELD)
      end
  | EAT_CRNL =>
      match c with
      | EOL => Returns (set_state self START_RECORD)
      | Ch ch => if is_newline ch then Returns self else Raises newline_error
      end
  end.

(** The inner [while (linelen--)] loop of [Reader_iternext]. *)
Fixpoint process_chars (delimiter : ascii) (self : ReaderObj) (line : string)
  : outcome ReaderObj :=
  match line with
  | EmptyString => Returns self
  | String c line' =>
      self' <- parse_process_char delimiter self (Ch c) ;;
      process_chars delimiter self' line'
  end.

(** One line: its characters, then the end-of-line marker. *)
Definition process_line (delimiter : ascii) (self : ReaderObj) (line : string)
  : outcome ReaderObj :=
  self' <- process_chars delimiter self line ;;
  parse_process_char delimiter self' EOL.

(** The [do ... while (self->state != START_RECORD)] loop of
    [Reader_iternext]: [Some row] is the record returned, [None] is
    [StopIteration]; the second component is what is left of the input. *)
Fixpoint iternext_loop (delimiter : ascii) (self : ReaderObj) (lines : list string)
  : outcome (option (list string) * list string) :=
  match lines with
  | [] =>
      if negb (Nat.eqb (String.length (field self)) 0)
         || ParserState_eqb (state self) IN_QUOTED_FIELD
      then Returns (Some (fields (parse_save_field self)), [])
      else Returns (None, [])
  | line :: rest =>
      self' <- process_line delimiter self line ;;
      if ParserState_eqb (state self') START_RECORD
      then Returns (Some (fields self'), rest)
      else iternext_loop delimiter self' rest
  end.

Definition Reader_iternext (delimiter : ascii) (lines : list string)
  : outcome (option (list string) * list string) :=
  iternext_loop delimiter parse_reset lines.

(** A reader object as [csv.reader] builds it: the dialect's delimiter and
    the line iterator. *)
Record Reader : Type := mkCsvReader {
  dialect_delimiter : ascii;
  input_iter : list string
}.

Definition delimiter_error : exn :=
  mkExn TypeError (dq ++ "delimiter" ++ dq ++ " must be a 1-character string").

(** [csv.reader(io.StringIO(content), delimiter=delimiter)]: the dialect
    is validated when the reader is built. *)
Definition reader (content : string) (delimiter : string) : outcome Reader :=
  match delimiter with
  | String d EmptyString => Returns (mkCsvReader d (readlines content))
  | _ => Raises delimiter_error
  end.

(** [list(reader)]: call [Reader_iternext] until it stops.  Every call
    that returns a record has consumed a line, so [S (length lines)]
    calls are enough (lemma [list_fuel_enough] below). *)
Fixpoint list_fuel (fuel : nat) (delimiter : ascii) (lines : list string)
  : outcome (list (list string)) :=
  match fuel with
  | O => Returns []
  | S fuel' =>
      r <- Reader_iternext delimiter lines ;;
      match r with
      | (None, _) => Returns []
      | (Some row, rest) =>
          rows <- list_fuel fuel' delimiter rest ;;
          Returns (row :: rows)
      end
  end.

Definition list_ (r : Reader) : outcome (list (list string)) :=
  list_fuel (S (length (input_iter r))) (dialect_delimiter r) (input_iter r).

End Csv.

(* ===================================================================== *)
(** ** csv2md.py *)
(* ===================================================================== *)

Module Csv2md.

Import Csv.

(** *** read_csv_file *)

(** The argument of [read_csv_file]: a path, or an object with a [read]
    method.  What reading gives is decided by the environment, so a file
    object is modelled by the outcome of its [read()], and the file system
    by the outcome of opening a path and reading it to the end. *)
Inductive file_path_or_obj : Type :=
| Path (p : string)
| FileObj (read : outcome string).

Definition read_csv_file (open_read : string -> outcome string)
                         (x : file_path_or_obj) : outcome string :=
  try_except
    (match x with
     | Path p => open_read p
     | FileObj read => read
     end)
    (fun e => Raises (mkExn IOError
                        ("Error occurred while reading CSV file: " ++ str e))).

(** *** csv_to_md_table *)

Definition render_line (cells : list string) : string :=
  "| " ++ join " | " cells ++ " |".

(** Lines 65 to 69: what a data row becomes before it is rendered. *)
Definition normalize_row (header_row row : list string) : list string :=
  if (length row <? length header_row)%nat
  then (row ++ list_mul EmptyString (length header_row - length row))%list
  else if (length header_row <? length row)%nat
       then slice_to (length header_row) row
       else row.

(** The [for row in rows[1:]] loop; [data_rows] is the list being
    appended to. *)
Fixpoint data_rows_loop (header_row : list string) (rows : list (list string))
                        (data_rows : list string) : list string :=
  match rows with
  | [] => data_rows
  | row :: rows' =>
      data_rows_loop header_row rows'
        (data_rows ++ [render_line (normalize_row header_row row)])%list
  end.

(** The body of the [try] block. *)
Definition csv_to_md_table_body (csv_content : string) (delimiter : string)
  : outcome string :=
  rd <- reader csv_content delimiter ;;
  rows <- list_ rd ;;
  match rows with
  | [] => Returns "Empty CSV data."
  | header_row :: _ =>
      let header := render_line header_row in
      let separator := render_line (list_mul "---" (length header_row)) in
      let data_rows := data_rows_loop header_row (slice_from_1 rows) [] in
      let md_table := join nl ([header; separator] ++ data_rows)%list in
      Returns md_table
  end.

Definition csv_to_md_table (csv_content : string) (delimiter : string)
  : outcome string :=
  try_except (csv_to_md_table_body csv_content delimiter)
             (fun e => Returns ("An error occurred: " ++ str e)).

(** What [rows] is bound to at line 50: building the reader, then
    [list(reader)]. *)
Definition parsed_rows (csv_content : string) (delimiter : string)
  : outcome (list (list string)) :=
  rd <- reader csv_content delimiter ;;
  list_ rd.

(** A file as the file system holds it: its text as stored (decoded), or
    the exception that opening or reading it raises (no such file, no
    permission, bytes that are not UTF-8). *)
Inductive file_state : Type :=
| Stored (text : string)
| Unreadable (e : exn).

(** Lines 29 and 30: [open(path, "r", encoding="utf-8")] and [f.read()].
    The file is opened in text mode, so line ends are translated. *)
Definition text_mode_open (files : string -> file_state) (p : string)
  : outcome string :=
  match files p with
  | Stored text => Returns (universal_newlines text)
  | Unreadable e => Raises e
  end.

(** What the [try] block of [read_csv_file] runs. *)
Definition underlying_read (open_read : string -> outcome string)
                           (x : file_path_or_obj) : outcome string :=
  match x with
  | Path p => open_read p
  | FileObj read => read
  end.

End Csv2md.

Import Csv Csv2md.

(* ===================================================================== *)
(** ** The command line: main *)
(* ===================================================================== *)

Module Cli.

(** What [parser.parse_args()] returns: the optional positional [input],
    the optional [-o/--output], and [-d/--delimiter] with its default
    already filled in. *)
Record Namespace : Type := mkNamespace {
  input : option string;
  output : option string;
  delimiter : string
}.

(** What [parser.parse_args()] does with the command line: it returns the
    namespace, or it prints a help or usage text and leaves the program
    with a code of its own, which nothing in [main] catches. *)
Inductive parse_result : Type :=
| Parsed (args : Namespace)
| Exits (out err : string) (code : nat).

(** The program's surroundings: the outcome of [parse_args] on the command
    line, the files, what reading the standard input gives, whether
    opening a path for writing succeeds (which creates or empties the
    file), whether writing a text to the opened file and closing it
    succeeds, and whether printing a text to the standard output
    succeeds. *)
Record Env : Type := mkEnv {
  parse_args : parse_result;
  files : string -> file_state;
  stdin_read : outcome string;
  open_write : string -> outcome unit;
  write_close : string -> string -> outcome unit;
  print_stdout : string -> outcome unit
}.

(** What a run leaves behind: the text of the prints to the standard
    output that completed, the text printed to the standard error, the
    file that was opened for writing and so created or emptied, the file
    written with its content, and the exit code.  What a failing print or
    write left half done is not recorded. *)
Record Process : Type := mkProcess {
  stdout : string;
  stderr : string;
  truncated : option string;
  written : option (string * string);
  exit_code : nat
}.

(** The effects of the [try] block so far. *)
Record Effects : Type := mkEffects {
  printed : string;
  opened : option string;
  wrote : option (string * string)
}.

Definition no_effects : Effects := mkEffects EmptyString None None.

(** [if x:] for an optional string: [None] and the empty string are false. *)
Definition truthy (x : option string) : option string :=
  match x with
  | Some (String c s) => Some (String c s)
  | _ => None
  end.

(** The body of the [try] block of [main], lines 101 to 115: its effects,
    and whether it ended or raised.  [print] adds a line feed; writing to
    a file does not. *)
Definition main_try (args : Namespace) (env : Env) : Effects * outcome unit :=
  match
    match truthy (input args) with
    | Some p => read_csv_file (text_mode_open (files env)) (Path p)
    | None => read_csv_file (text_mode_open (files env)) (FileObj (stdin_read env))
    end
  with
  | Raises e => (no_effects, Raises e)
  | Returns csv_content =>
      match csv_to_md_table csv_content (delimiter args) with
      | Raises e => (no_effects, Raises e)
      | Returns md_table =>
          match truthy (output args) with
          | Some p =>
              match open_write env p with
              | Raises e => (no_effects, Raises e)
              | Returns _ =>
                  match write_close env p md_table with
                  | Raises e => (mkEffects EmptyString (Some p) None, Raises e)
                  | Returns _ =>
                      (mkEffects EmptyString (Some p) (Some (p, md_table)),
                       Returns tt)
                  end
              end
          | None =>
              match print_stdout env md_table with
              | Raises e => (no_effects, Raises e)
              | Returns _ => (mkEffects (md_table ++ nl) None None, Returns tt)
              end
          end
      end
  end.

(** [main]: when [parse_args] returns, the [try] block runs; an exception
    is printed to the standard error and the process exits with code 1. *)
Definition main (env : Env) : Process :=
  match parse_args env with
  | Exits out err code => mkProcess out err None None code
  | Parsed args =>
      match main_try args env with
      | (eff, Returns _) =>
          mkProcess (printed eff) EmptyString (opened eff) (wrote eff) 0
      | (eff, Raises e) =>
          mkProcess (printed eff) ("Error: " ++ str e ++ nl)
                    (opened eff) (wrote eff) 1
      end
  end.

(** What the chosen source gives when it is read. *)
Definition source_read (args : Namespace) (env : Env) : outcome string :=
  match truthy (input args) with
  | Some p => text_mode_open (files env) p
  | None => stdin_read env
  end.

End Cli.

(* ===================================================================== *)
(** ** Vocabulary for the reader's properties *)
(* ===================================================================== *)

(** What [list_fuel] does with the result of one [Reader_iternext]. *)
Definition after_iternext (d : ascii) (fuel : nat)
           (r : option (list string) * list string)
  : outcome (list (list string)) :=
  match r with
  | (None, _) => Returns []
  | (Some row, rest) => rows <- list_fuel fuel d rest ;; Returns (row :: rows)
  end.

(** The lines of a text whose first line has begun. *)
Definition begun_lines (s : string) : list string :=
  match readlines s with
  | [] => [EmptyString]
  | ls => ls
  end.

(** What [Reader_iternext] returns when the input is exhausted: the pending
    field, if there is one, closes a last record. *)
Definition end_of_input (self : ReaderObj) : list (list string) :=
  if negb (Nat.eqb (String.length (field self)) 0)
     || ParserState_eqb (state self) IN_QUOTED_FIELD
  then [fields (parse_save_field self)]
  else [].

(** [list(reader)] as one recursion over the lines: the two nested loops
    of [list_fuel] and [iternext_loop] fused (lemma [list_fuel_read_records]). *)
Fixpoint read_records (delimiter : ascii) (self : ReaderObj) (lines : list string)
  : outcome (list (list string)) :=
  match lines with
  | [] => Returns (end_of_input self)
  | line :: rest =>
      self' <- process_line delimiter self line ;;
      if ParserState_eqb (state self') START_RECORD
      then rows <- read_records delimiter parse_reset rest ;;
           Returns (fields self' :: rows)
      else read_records delimiter self' rest
  end.

(** The end of a line: the end-of-line marker is processed, and a finished
    record is handed over before [k] goes on with the input. *)
Definition end_line (delimiter : ascii) (self : ReaderObj)
           (k : ReaderObj -> outcome (list (list string)))
  : outcome (list (list string)) :=
  self' <- parse_process_char delimiter self EOL ;;
  if ParserState_eqb (state self') START_RECORD
  then rows <- k parse_reset ;; Returns (fields self' :: rows)
  else k self'.

(** The same reading, character by character over the unsplit text;
    [midline] tells whether the current line has begun (lemma
    [run_read_records]). *)
Fixpoint run (delimiter : ascii) (self : ReaderObj) (s : string) (midline : bool)
  : outcome (list (list string)) :=
  match s with
  | EmptyString =>
      if midline
      then end_line delimiter self (fun self' => Returns (end_of_input self'))
      else Returns (end_of_input self)
  | String c s' =>
      self1 <- parse_process_char delimiter self (Ch c) ;;
      if Ascii.eqb c LF
      then end_line delimiter self1 (fun self' => run delimiter self' s' false)
      else run delimiter self1 s' true
  end.

Fixpoint string_forallb (p : ascii -> bool) (s : string) : bool :=
  match s with
  | EmptyString => true
  | String c s' => p c && string_forallb p s'
  end.

(** A delimiter that is neither the quote character nor a line break. *)
Definition usual_delimiter (d : ascii) : bool :=
  negb (Ascii.eqb d DQUOTE) && negb (is_newline d).

(** A character that an unquoted field may hold: neither the delimiter
    nor a line break. *)
Definition field_char (d : ascii) (c : ascii) : bool :=
  negb (Ascii.eqb c d) && negb (is_newline c).

(** The text of an unquoted cell: field characters, the first of which is
    not a double quote. *)
Definition plain_ok (d : ascii) (s : string) : bool :=
  match s with
  | EmptyString => true
  | String a _ => negb (Ascii.eqb a DQUOTE) && string_forallb (field_char d) s
  end.

Definition within_limit (s : string) : bool :=
  (N.of_nat (String.length s) <=? field_limit)%N.

(** Writing a text between quotes doubles the quotes it holds. *)
Fixpoint escape_quotes (s : string) : string :=
  match s with
  | EmptyString => EmptyString
  | String c s' =>
      if Ascii.eqb c DQUOTE
      then String DQUOTE (String DQUOTE (escape_quotes s'))
      else String c (escape_quotes s')
  end.

(** How a cell is written in the input: as it is, or between double
    quotes. *)
Inductive cell_src : Type :=
| Plain (text : string)
| Quoted (body : string).

Definition cell_text (c : cell_src) : string :=
  match c with
  | Plain s => s
  | Quoted b => String DQUOTE (escape_quotes b ++ dq)
  end.

Definition cell_value (c : cell_src) : string :=
  match c with
  | Plain s => s
  | Quoted b => b
  end.

(** An unquoted cell must be writable without quotes; a quoted cell may
    hold any text at all, delimiters, line breaks and quotes included.
    Both fit the field size limit. *)
Definition cell_ok (d : ascii) (c : cell_src) : bool :=
  match c with
  | Plain s => plain_ok d s && within_limit s
  | Quoted b => within_limit b
  end.

Definition is_blank (cs : list cell_src) : bool :=
  match cs with
  | [] => true
  | [Plain EmptyString] => true
  | _ => false
  end.

(** A row of cells that does not write out as a blank line. *)
Definition row_ok (d : ascii) (cs : list cell_src) : bool :=
  negb (is_blank cs) && forallb (cell_ok d) cs.

Definition row_text (d : ascii) (cs : list cell_src) : string :=
  join (String d EmptyString) (map cell_text cs).

(** Lines of text, each ended by a line feed. *)
Fixpoint rows_text (d : ascii) (rs : list (list cell_src)) : string :=
  match rs with
  | [] => EmptyString
  | cs :: rs' => row_text d cs ++ String LF (rows_text d rs')
  end.

Definition row_values (cs : list cell_src) : list string := map cell_value cs.

(** The states in which the field buffer holds a whole cell, and those in
    which a cell may begin. *)
Definition cell_done (st : ParserState) : bool :=
  match st with
  | START_FIELD | IN_FIELD | QUOTE_IN_QUOTED_FIELD => true
  | _ => false
  end.

Definition cell_start (st : ParserState) : bool :=
  match st with
  | START_RECORD | START_FIELD => true
  | _ => false
  end.

(** Whether a line has begun once [p] has been read on it ([p] without
    line feed). *)
Definition begun (midline : bool) (p : string) : bool :=
  match p with
  | EmptyString => midline
  | String _ _ => true
  end.

(** The text of the cells that follow the first one of a row. *)
Fixpoint rest_text (d : ascii) (cs : list cell_src) : string :=
  match cs with
  | [] => EmptyString
  | c :: cs' => String d (cell_text c ++ rest_text d cs')
  end.

Fixpoint string_repeat (c : ascii) (n : nat) : string :=
  match n with
  | O => EmptyString
  | S n' => String c (string_repeat c n')
  end.

(** What it means for [line] to be the rendering of [row] in a table whose
    header has [w] cells: it is the rendering of exactly [w] cells, which
    are the row padded, truncated, or left alone. *)
Definition rendered_from (w : nat) (row : list string) (line : string) : Prop :=
  exists cells,
    length cells = w
    /\ line = render_line cells
    /\ (length row < w -> cells = (row ++ repeat EmptyString (w - length row))%list)
    /\ (w < length row -> cells = firstn w row)
    /\ (length row = w -> cells = row).

Ltac step_state :=
  cbn [run parse_process_char start_field state bind];
  unfold set_state, parse_save_field;
  cbn [state fields field].

(** Inputs used as examples. *)
Definition uneven_input : string :=
  "Name,Age,City" ++ nl ++ "John,30" ++ nl ++ "Jane,25,Los Angeles,USA".

(** What opening and reading gives in a file system with a single file. *)
Definition one_file_fs (p : string) : outcome string :=
  if String.eqb p "data.csv" then Returns ("Name,Age" ++ nl ++ "John,30")
  else Raises (mkExn (OtherError "FileNotFoundError")
                     ("[Errno 2] No such file or directory: '" ++ p ++ "'")).


(** The result of [csv_to_md_table] as a function of the parsed rows. *)
Definition md_table_of (rows : list (list string)) : string :=
  match rows with
  | [] => "Empty CSV data."
  | header_row :: data =>
      join nl (render_line header_row
               :: render_line (repeat "---" (length header_row))
               :: map (fun row => render_line (normalize_row header_row row)) data)
  end.


(** The text of a line up to the cell that comes after the cells [pre]. *)
Definition cells_then (d : ascii) (pre : list cell_src) : string :=
  match pre with
  | [] => EmptyString
  | _ => row_text d pre ++ String d EmptyString
  end.

(** A line whose last cell opens a quote that is never closed. *)
Definition open_row_text (d : ascii) (pre : list cell_src) (body : string) : string :=
  cells_then d pre ++ String DQUOTE (escape_quotes body).

(** Environments used as examples.  The first has one file, a standard
    input with a two-row text, and lets only "out.md" be opened for
    writing; printing always succeeds. *)
Definition one_file_store (p : string) : file_state :=
  if String.eqb p "data.csv" then Stored ("Name,Age" ++ nl ++ "John,30")
  else Unreadable (mkExn (OtherError "FileNotFoundError")
                         ("[Errno 2] No such file or directory: '" ++ p ++ "'")).

Definition example_env (args : Cli.Namespace) : Cli.Env :=
  Cli.mkEnv (Cli.Parsed args)
            one_file_store
            (Returns ("a;b" ++ nl ++ "1;2"))
            (fun p =>
               if String.eqb p "out.md" then Returns tt
               else Raises (mkExn (OtherError "PermissionError")
                                  ("[Errno 13] Permission denied: '" ++ p ++ "'")))
            (fun _ _ => Returns tt)
            (fun _ => Returns tt).

(** The second has files that all hold a two-row table with line ends of
    carriage return and line feed, a standard input that cannot be read,
    and lets every write and print succeed. *)
Definition table_file_env (args : Cli.Namespace) : Cli.Env :=
  Cli.mkEnv (Cli.Parsed args)
            (fun _ => Stored ("Name,Age" ++ String CR nl ++ "John,30" ++ String CR nl))
            (Raises (mkExn (OtherError "ValueError")
                           "I/O operation on closed file."))
            (fun _ => Returns tt)
            (fun _ _ => Returns tt)
            (fun _ => Returns tt).

(** The third opens the output file but fails to write it, and cannot
    print. *)
Definition failing_sink_env (args : Cli.Namespace) : Cli.Env :=
  Cli.mkEnv (Cli.Parsed args)
            one_file_store
            (Returns ("a;b" ++ nl ++ "1;2"))
            (fun _ => Returns tt)
            (fun _ _ => Raises (mkExn (OtherError "OSError")
                                      "[Errno 28] No space left on device"))
            (fun _ => Raises (mkExn (OtherError "UnicodeEncodeError")
                                    "'ascii' codec can't encode character")).

(** Files stored with carriage returns. *)
Definition crlf_store (p : string) : file_state :=
  Stored ("a,b" ++ String CR nl ++ "1,2" ++ String CR EmptyString).

(** Reading a text without what the end of the input does: the records
    finished so far, and the reader's state and whether the current line
    has begun. *)
Fixpoint run_prefix (delimiter : ascii) (self : ReaderObj) (s : string)
                    (midline : bool)
  : outcome (list (list string) * (ReaderObj * bool)) :=
  match s with
  | EmptyString => Returns ([], (self, midline))
  | String c s' =>
      self1 <- parse_process_char delimiter self (Ch c) ;;
      if Ascii.eqb c LF
      then self2 <- parse_process_char delimiter self1 EOL ;;
           if ParserState_eqb (state self2) START_RECORD
           then r <- run_prefix delimiter parse_reset s' false ;;
                Returns (fields self2 :: fst r, snd r)
           else run_prefix delimiter self2 s' false
      else run_prefix delimiter self1 s' true
  end.

(** The text [pre] is made of whole records: read from the start it gives
    [rows] and leaves the reader at the start of a record, outside any
    quoted field and past the line break. *)
Definition reads_to (d : ascii) (pre : string) (rows : list (list string)) : Prop :=
  run_prefix d parse_reset pre false = Returns (rows, (parse_reset, false)).

(** Where a run of [main] can end once the command line is parsed. *)
Inductive main_end (args : Cli.Namespace) (env : Cli.Env) : Cli.Process -> Prop :=
| end_read_raises cause :
    Cli.source_read args env = Raises cause ->
    main_end args env
      (Cli.mkProcess EmptyString
         ("Error: Error occurred while reading CSV file: " ++ str cause ++ nl)
         None None 1)
| end_printed content md :
    Cli.source_read args env = Returns content ->
    csv_to_md_table content (Cli.delimiter args) = Returns md ->
    Cli.truthy (Cli.output args) = None ->
    Cli.print_stdout env md = Returns tt ->
    main_end args env (Cli.mkProcess (md ++ nl) EmptyString None None 0)
| end_print_raises content md e :
    Cli.source_read args env = Returns content ->
    csv_to_md_table content (Cli.delimiter args) = Returns md ->
    Cli.truthy (Cli.output args) = None ->
    Cli.print_stdout env md = Raises e ->
    main_end args env
      (Cli.mkProcess EmptyString ("Error: " ++ str e ++ nl) None None 1)
| end_open_raises content md path e :
    Cli.source_read args env = Returns content ->
    csv_to_md_table content (Cli.delimiter args) = Returns md ->
    Cli.truthy (Cli.output args) = Some path ->
    Cli.open_write env path = Raises e ->
    main_end args env
      (Cli.mkProcess EmptyString ("Error: " ++ str e ++ nl) None None 1)
| end_write_raises content md path e :
    Cli.source_read args env = Returns content ->
    csv_to_md_table content (Cli.delimiter args) = Returns md ->
    Cli.truthy (Cli.output args) = Some path ->
    Cli.open_write env path = Returns tt ->
    Cli.write_close env path md = Raises e ->
    main_end args env
      (Cli.mkProcess EmptyString ("Error: " ++ str e ++ nl) (Some path) None 1)
| end_written content md path :
    Cli.source_read args env = Returns content ->
    csv_to_md_table content (Cli.delimiter args) = Returns md ->
    Cli.truthy (Cli.output args) = Some path ->
    Cli.open_write env path = Returns tt ->
    Cli.write_close env path md = Returns tt ->
    main_end args env
      (Cli.mkProcess EmptyString EmptyString (Some path) (Some (path, md)) 0).

(** Reading the input, printing the result, or opening or writing the
    output file raises. *)
Definition env_raises (args : Cli.Namespace) (env : Cli.Env) : Prop :=
  (exists cause, Cli.source_read args env = Raises cause)
  \/ exists content md,
      Cli.source_read args env = Returns content
      /\ csv_to_md_table content (Cli.delimiter args) = Returns md
      /\ ((Cli.truthy (Cli.output args) = None
           /\ exists e, Cli.print_stdout env md = Raises e)
          \/ exists path,
              Cli.truthy (Cli.output args) = Some path
              /\ ((exists e, Cli.open_write env path = Raises e)
                  \/ (Cli.open_write env path = Returns tt
                      /\ exists e, Cli.write_close env path md = Raises e))).

(* ===================================================================== *)
(** ** Row normalisation and rendering *)
(* ===================================================================== *)

Section Rendering.

Variable header_row : list string.

Lemma normalize_row_length (row : list string) :
  length (normalize_row header_row row) = length header_row.
Proof.
  unfold normalize_row, list_mul, slice_to.
  destruct (Nat.ltb_spec (length row) (length header_row)) as [Hlt | Hge].
  - rewrite length_app, repeat_length. lia.
  - destruct (Nat.ltb_spec (length header_row) (length row)) as [Hgt | Hle].
    + apply firstn_length_le. lia.
    + lia.
Qed.

Lemma normalize_row_short (row : list string) :
  length row < length header_row ->
  normalize_row header_row row
  = (row ++ repeat EmptyString (length header_row - length row))%list.
Proof.
  intros Hlt. unfold normalize_row, list_mul.
  apply Nat.ltb_lt in Hlt. now rewrite Hlt.
Qed.

Lemma normalize_row_long (row : list string) :
  length header_row < length row ->
  normalize_row header_row row = firstn (length header_row) row.
Proof.
  intros Hgt. unfold normalize_row, slice_to.
  destruct (Nat.ltb_spec (length row) (length header_row)) as [Hlt | _]; [lia|].
  apply Nat.ltb_lt in Hgt. now rewrite Hgt.
Qed.

Lemma normalize_row_exact (row : list string) :
  length row = length header_row ->
  normalize_row header_row row = row.
Proof.
  intros Heq. unfold normalize_row.
  rewrite Heq, Nat.ltb_irrefl. reflexivity.
Qed.

(** The loop appends one rendered line per row, in order. *)
Lemma data_rows_loop_spec (rows : list (list string)) :
  forall data_rows,
    data_rows_loop header_row rows data_rows
    = (data_rows
       ++ map (fun row => render_line (normalize_row header_row row)) rows)%list.
Proof.
  induction rows as [| row rows IH]; intros acc; simpl.
  - now rewrite app_nil_r.
  - rewrite IH, <- app_assoc. reflexivity.
Qed.

End Rendering.

(** The table as a function of the parsed rows. *)
Lemma csv_to_md_table_rows (content delimiter : string)
      (header_row : list string) (rows : list (list string)) :
  parsed_rows content delimiter = Returns (header_row :: rows) ->
  csv_to_md_table content delimiter
  = Returns (join nl (render_line header_row
                      :: render_line (repeat "---" (length header_row))
                      :: map (fun row => render_line (normalize_row header_row row))
                             rows)).
Proof.
  unfold parsed_rows, csv_to_md_table, csv_to_md_table_body. intros H.
  destruct (reader content delimiter) as [rd | e]; simpl in *; [| discriminate].
  rewrite H. simpl. now rewrite data_rows_loop_spec.
Qed.

Lemma csv_to_md_table_raises (content delimiter : string) (e : exn) :
  parsed_rows content delimiter = Raises e ->
  csv_to_md_table content delimiter = Returns ("An error occurred: " ++ str e).
Proof.
  unfold parsed_rows, csv_to_md_table, csv_to_md_table_body. intros H.
  destruct (reader content delimiter) as [rd | e']; simpl in *.
  - now rewrite H.
  - now inversion H.
Qed.

(* ===================================================================== *)
(** ** Claims about rendering *)
(* ===================================================================== *)

Lemma rendered_from_normalize (header_row row : list string) :
  rendered_from (length header_row) row
                (render_line (normalize_row header_row row)).
Proof.
  exists (normalize_row header_row row).
  split; [apply normalize_row_length |].
  split; [reflexivity |].
  split; [apply normalize_row_short |].
  split; [apply normalize_row_long |].
  intros Heq. now apply normalize_row_exact.
Qed.

(** C1. Whenever parsing succeeds with at least one row, the table is the
    header line, the separator line and one data line per data row, and
    every data line is the rendering of exactly as many cells as the header
    has: the row right-padded with empty cells when shorter, cut to its
    first cells when longer.  This holds for every header width (also for
    an empty header). *)
Theorem C1_data_lines_have_header_width
        (content delimiter : string)
        (header_row : list string) (rows : list (list string)) :
  parsed_rows content delimiter = Returns (header_row :: rows) ->
  exists data_lines,
    csv_to_md_table content delimiter
    = Returns (join nl (render_line header_row
                        :: render_line (repeat "---" (length header_row))
                        :: data_lines))
    /\ Forall2 (rendered_from (length header_row)) rows data_lines.
Proof.
  intros Hparse.
  exists (map (fun row => render_line (normalize_row header_row row)) rows).
  split.
  - now apply csv_to_md_table_rows.
  - clear Hparse. induction rows as [| row rows IH]; simpl; constructor.
    + apply rendered_from_normalize.
    + exact IH.
Qed.

Lemma C1_witness :
  parsed_rows uneven_input ","
  = Returns [["Name"; "Age"; "City"]; ["John"; "30"];
             ["Jane"; "25"; "Los Angeles"; "USA"]]
  /\ exists data_lines,
      csv_to_md_table uneven_input ","
      = Returns (join nl ("| Name | Age | City |" :: "| --- | --- | --- |"
                          :: data_lines))
      /\ Forall2 (rendered_from 3)
                 [["John"; "30"]; ["Jane"; "25"; "Los Angeles"; "USA"]]
                 data_lines.
Proof.
  split; [reflexivity |].
  apply (C1_data_lines_have_header_width uneven_input ","
           ["Name"; "Age"; "City"]
           [["John"; "30"]; ["Jane"; "25"; "Los Angeles"; "USA"]]).
  reflexivity.
Defined.

(** C2. [csv_to_md_table] always returns a string and never raises:
    whatever exception the body of its [try] block raises, be it from
    building the reader or from parsing, the function returns
    "An error occurred: " followed by the exception's message. *)
Theorem C2_never_raises (content delimiter : string) :
  exists s,
    csv_to_md_table content delimiter = Returns s
    /\ (forall e, csv_to_md_table_body content delimiter = Raises e ->
                  s = "An error occurred: " ++ str e)
    /\ (forall e, parsed_rows content delimiter = Raises e ->
                  s = "An error occurred: " ++ str e).
Proof.
  unfold csv_to_md_table.
  destruct (csv_to_md_table_body content delimiter) as [s | e] eqn:Hbody; simpl.
  - exists s. split; [reflexivity |]. split.
    + intros e He. discriminate.
    + intros e He. apply csv_to_md_table_raises in He.
      unfold csv_to_md_table in He. rewrite Hbody in He. simpl in He.
      now inversion He.
  - exists ("An error occurred: " ++ str e). split; [reflexivity |]. split.
    + intros e' He'. now inversion He'.
    + intros e' He'. apply csv_to_md_table_raises in He'.
      unfold csv_to_md_table in He'. rewrite Hbody in He'. simpl in He'.
      now inversion He'.
Qed.

(** C3. The empty input gives exactly "Empty CSV data.", and so does every
    input whose parsing yields zero rows. *)
Theorem C3_empty_input_sentinel :
  csv_to_md_table EmptyString "," = Returns "Empty CSV data."
  /\ forall content delimiter,
      parsed_rows content delimiter = Returns [] ->
      csv_to_md_table content delimiter = Returns "Empty CSV data.".
Proof.
  split; [reflexivity |].
  unfold parsed_rows, csv_to_md_table, csv_to_md_table_body.
  intros content delimiter H.
  destruct (reader content delimiter) as [rd | e]; simpl in *; [| discriminate].
  now rewrite H.
Qed.

Lemma C3_witness :
  parsed_rows EmptyString ";" = Returns []
  /\ csv_to_md_table EmptyString ";" = Returns "Empty CSV data.".
Proof.
  split; [reflexivity |].
  apply (proj2 C3_empty_input_sentinel EmptyString ";"). reflexivity.
Defined.

(** C4. The header-only input "Name,Age,City" gives the header line and the
    separator line joined by one line feed, with no data line and no
    trailing line feed; in general a single parsed row gives its rendering
    followed by a separator of one "---" cell per header cell. *)
Theorem C4_header_only :
  csv_to_md_table "Name,Age,City" ","
  = Returns ("| Name | Age | City |" ++ nl ++ "| --- | --- | --- |")
  /\ forall content delimiter header_row,
      parsed_rows content delimiter = Returns [header_row] ->
      csv_to_md_table content delimiter
      = Returns (render_line header_row ++ nl
                 ++ render_line (repeat "---" (length header_row))).
Proof.
  split; [reflexivity |].
  intros content delimiter header_row H.
  now rewrite (csv_to_md_table_rows _ _ _ _ H).
Qed.

Lemma C4_witness :
  parsed_rows "x;y" ";" = Returns [["x"; "y"]]
  /\ csv_to_md_table "x;y" ";" = Returns ("| x | y |" ++ nl ++ "| --- | --- |").
Proof.
  split; [reflexivity |].
  apply (proj2 C4_header_only "x;y" ";" ["x"; "y"]). reflexivity.
Defined.

(** The data line at position [i] of the table, for the data row at
    position [i] of the parse. *)
Lemma data_line_at (content delimiter : string)
      (header_row : list string) (rows : list (list string))
      (i : nat) (row : list string) :
  parsed_rows content delimiter = Returns (header_row :: rows) ->
  nth_error rows i = Some row ->
  exists data_lines,
    csv_to_md_table content delimiter
    = Returns (join nl (render_line header_row
                        :: render_line (repeat "---" (length header_row))
                        :: data_lines))
    /\ length data_lines = length rows
    /\ nth_error data_lines i
       = Some (render_line (normalize_row header_row row)).
Proof.
  intros Hparse Hnth.
  exists (map (fun row => render_line (normalize_row header_row row)) rows).
  split; [now apply csv_to_md_table_rows |].
  split; [apply length_map |].
  exact (map_nth_error (fun r => render_line (normalize_row header_row r))
                       i rows Hnth).
Qed.

(** C5. A data row with fewer cells than the header is rendered as the row
    followed by as many empty cells as are missing, which makes exactly the
    header's width; on "Name,Age,City\nJohn,30" the data line is
    "| John | 30 |  |". *)
Theorem C5_short_rows_are_padded :
  (forall content delimiter header_row rows i row,
      parsed_rows content delimiter = Returns (header_row :: rows) ->
      nth_error rows i = Some row ->
      length row < length header_row ->
      let padded :=
        (row ++ repeat EmptyString (length header_row - length row))%list in
      length padded = length header_row
      /\ exists data_lines,
          csv_to_md_table content delimiter
          = Returns (join nl (render_line header_row
                              :: render_line (repeat "---" (length header_row))
                              :: data_lines))
          /\ nth_error data_lines i = Some (render_line padded))
  /\ csv_to_md_table ("Name,Age,City" ++ nl ++ "John,30") ","
     = Returns ("| Name | Age | City |" ++ nl ++ "| --- | --- | --- |" ++ nl
                ++ "| John | 30 |  |").
Proof.
  split; [| reflexivity].
  intros content delimiter header_row rows i row Hparse Hnth Hlt padded.
  subst padded. split.
  - rewrite length_app, repeat_length. lia.
  - destruct (data_line_at _ _ _ _ _ _ Hparse Hnth) as (lines & Htab & _ & Hline).
    exists lines. split; [exact Htab |].
    now rewrite <- (normalize_row_short header_row row Hlt).
Qed.

Lemma C5_witness :
  parsed_rows ("Name,Age,City" ++ nl ++ "John,30") ","
  = Returns [["Name"; "Age"; "City"]; ["John"; "30"]]
  /\ nth_error [["John"; "30"]] 0 = Some ["John"; "30"]
  /\ length ["John"; "30"] < length ["Name"; "Age"; "City"]
  /\ exists data_lines,
      csv_to_md_table ("Name,Age,City" ++ nl ++ "John,30") ","
      = Returns (join nl ("| Name | Age | City |" :: "| --- | --- | --- |"
                          :: data_lines))
      /\ nth_error data_lines 0 = Some "| John | 30 |  |".
Proof.
  split; [reflexivity |]. split; [reflexivity |]. split; [simpl; lia |].
  apply (proj1 C5_short_rows_are_padded
           ("Name,Age,City" ++ nl ++ "John,30") ","
           ["Name"; "Age"; "City"] [["John"; "30"]] 0 ["John"; "30"]).
  - reflexivity.
  - reflexivity.
  - simpl; lia.
Defined.

(** C6. A data row with more cells than the header is rendered as its
    first cells, as many as the header has; on
    "Name,Age,City\nJane,25,Los Angeles,USA" the data line is
    "| Jane | 25 | Los Angeles |". *)
Theorem C6_long_rows_are_truncated :
  (forall content delimiter header_row rows i row,
      parsed_rows content delimiter = Returns (header_row :: rows) ->
      nth_error rows i = Some row ->
      length header_row < length row ->
      let truncated := firstn (length header_row) row in
      length truncated = length header_row
      /\ exists data_lines,
          csv_to_md_table content delimiter
          = Returns (join nl (render_line header_row
                              :: render_line (repeat "---" (length header_row))
                              :: data_lines))
          /\ nth_error data_lines i = Some (render_line truncated))
  /\ csv_to_md_table ("Name,Age,City" ++ nl ++ "Jane,25,Los Angeles,USA") ","
     = Returns ("| Name | Age | City |" ++ nl ++ "| --- | --- | --- |" ++ nl
                ++ "| Jane | 25 | Los Angeles |").
Proof.
  split; [| reflexivity].
  intros content delimiter header_row rows i row Hparse Hnth Hgt truncated.
  subst truncated. split.
  - apply firstn_length_le. lia.
  - destruct (data_line_at _ _ _ _ _ _ Hparse Hnth) as (lines & Htab & _ & Hline).
    exists lines. split; [exact Htab |].
    now rewrite <- (normalize_row_long header_row row Hgt).
Qed.

Lemma C6_witness :
  parsed_rows ("Name,Age,City" ++ nl ++ "Jane,25,Los Angeles,USA") ","
  = Returns [["Name"; "Age"; "City"]; ["Jane"; "25"; "Los Angeles"; "USA"]]
  /\ length ["Name"; "Age"; "City"] < length ["Jane"; "25"; "Los Angeles"; "USA"]
  /\ exists data_lines,
      csv_to_md_table ("Name,Age,City" ++ nl ++ "Jane,25,Los Angeles,USA") ","
      = Returns (join nl ("| Name | Age | City |" :: "| --- | --- | --- |"
                          :: data_lines))
      /\ nth_error data_lines 0 = Some "| Jane | 25 | Los Angeles |".
Proof.
  split; [reflexivity |]. split; [simpl; lia |].
  apply (proj1 C6_long_rows_are_truncated
           ("Name,Age,City" ++ nl ++ "Jane,25,Los Angeles,USA") ","
           ["Name"; "Age"; "City"] [["Jane"; "25"; "Los Angeles"; "USA"]]
           0 ["Jane"; "25"; "Los Angeles"; "USA"]).
  - reflexivity.
  - reflexivity.
  - simpl; lia.
Defined.

(* ===================================================================== *)
(** ** Claims about errors *)
(* ===================================================================== *)

Lemma universal_newlines_unchanged (s : string) :
  string_forallb (fun c => negb (Ascii.eqb c CR)) s = true ->
  universal_newlines s = s.
Proof.
  induction s as [| c s IH]; [reflexivity |].
  cbn [string_forallb]. intros H. apply andb_prop in H as [Hc Hs].
  apply negb_true_iff in Hc. cbn [universal_newlines]. rewrite Hc.
  now rewrite IH.
Qed.

Lemma universal_newlines_no_CR_upto (n : nat) :
  forall s,
    String.length s <= n ->
    string_forallb (fun c => negb (Ascii.eqb c CR)) (universal_newlines s) = true.
Proof.
  induction n as [| n IH]; intros s Hlen.
  - destruct s; [reflexivity | simpl in Hlen; lia].
  - destruct s as [| c s]; [reflexivity |].
    simpl in Hlen. cbn [universal_newlines].
    destruct (Ascii.eqb c CR) eqn:Hc.
    + destruct s as [| c2 s]; [reflexivity |].
      simpl in Hlen.
      destruct (Ascii.eqb c2 LF); cbn [string_forallb];
        change (negb (Ascii.eqb LF CR)) with true; cbn [andb];
        apply IH; simpl; lia.
    + cbn [string_forallb]. rewrite Hc. cbn [negb andb]. apply IH. lia.
Qed.

Lemma universal_newlines_no_CR (s : string) :
  string_forallb (fun c => negb (Ascii.eqb c CR)) (universal_newlines s) = true.
Proof. apply (universal_newlines_no_CR_upto (String.length s)). lia. Qed.

(** C8 (as amended). When the read that [read_csv_file] attempts raises,
    for a path or for a stream and whatever the reason, [read_csv_file]
    raises an [IOError] whose message ends with the message of the cause.
    When it succeeds, a stream gives exactly what its [read()] returned,
    and a path gives the whole stored text of the file with its line ends
    translated as text mode does: every carriage return and line feed
    pair and every other carriage return becomes one line feed, so the
    result holds no carriage return, and it is the stored text itself when
    that holds none. *)
Theorem C8_read_csv_file
        (open_read : string -> outcome string)
        (files : string -> file_state) (x : file_path_or_obj) :
  (forall cause,
      underlying_read open_read x = Raises cause ->
      exists e,
        read_csv_file open_read x = Raises e
        /\ cls e = IOError
        /\ str e = "Error occurred while reading CSV file: " ++ str cause)
  /\ (forall text,
         read_csv_file open_read (FileObj (Returns text)) = Returns text)
  /\ (forall p stored,
         files p = Stored stored ->
         read_csv_file (text_mode_open files) (Path p)
         = Returns (universal_newlines stored)
         /\ string_forallb (fun c => negb (Ascii.eqb c CR))
                           (universal_newlines stored) = true
         /\ (string_forallb (fun c => negb (Ascii.eqb c CR)) stored = true ->
             read_csv_file (text_mode_open files) (Path p) = Returns stored))
  /\ (forall p cause,
         files p = Unreadable cause ->
         read_csv_file (text_mode_open files) (Path p)
         = Raises (mkExn IOError
                         ("Error occurred while reading CSV file: " ++ str cause))).
Proof.
  split; [| split; [| split]].
  - unfold read_csv_file, underlying_read. intros cause H.
    exists (mkExn IOError ("Error occurred while reading CSV file: " ++ str cause)).
    destruct x; rewrite H; simpl; auto.
  - reflexivity.
  - intros p stored Hp.
    assert (Hread : read_csv_file (text_mode_open files) (Path p)
                    = Returns (universal_newlines stored)).
    { unfold read_csv_file, text_mode_open. now rewrite Hp. }
    split; [exact Hread |]. split; [apply universal_newlines_no_CR |].
    intros Hno. rewrite Hread. now rewrite universal_newlines_unchanged.
  - intros p cause Hp. unfold read_csv_file, text_mode_open. now rewrite Hp.
Qed.

Lemma C8_witness :
  (exists e,
      read_csv_file one_file_fs (Path "missing.csv") = Raises e
      /\ cls e = IOError
      /\ str e = "Error occurred while reading CSV file: "
                 ++ "[Errno 2] No such file or directory: 'missing.csv'")
  /\ one_file_store "data.csv" = Stored ("Name,Age" ++ nl ++ "John,30")
  /\ read_csv_file (text_mode_open one_file_store) (Path "data.csv")
     = Returns ("Name,Age" ++ nl ++ "John,30").
Proof.
  split; [| split; [reflexivity |]].
  - apply (proj1 (C8_read_csv_file one_file_fs one_file_store (Path "missing.csv"))
             (mkExn (OtherError "FileNotFoundError")
                    "[Errno 2] No such file or directory: 'missing.csv'")).
    reflexivity.
  - apply (proj1 (proj2 (proj2 (C8_read_csv_file one_file_fs one_file_store
                                                 (Path "data.csv")))))
      with (p := "data.csv") (stored := "Name,Age" ++ nl ++ "John,30");
      reflexivity.
Defined.

(** C8, where reading differs from storing: a file stored with carriage
    returns is read, with success, as another text than the one stored. *)
Lemma C8_counterexample :
  crlf_store "data.csv"
  = Stored ("a,b" ++ String CR nl ++ "1,2" ++ String CR EmptyString)
  /\ read_csv_file (text_mode_open crlf_store) (Path "data.csv")
     = Returns ("a,b" ++ nl ++ "1,2" ++ nl)
  /\ "a,b" ++ nl ++ "1,2" ++ nl
     <> "a,b" ++ String CR nl ++ "1,2" ++ String CR EmptyString.
Proof.
  split; [reflexivity |]. split; [reflexivity |]. discriminate.
Qed.

(** C10. With a delimiter that is not exactly one character, the reader
    cannot be built: [csv_to_md_table] returns "An error occurred: "
    followed by the reader's message, whatever the input (so for every
    non-empty input, and for the empty one too), and thus neither a table
    nor the empty-input sentinel. *)
Theorem C10_bad_delimiter (content delimiter : string) :
  String.length delimiter <> 1 ->
  csv_to_md_table_body content delimiter = Raises delimiter_error
  /\ csv_to_md_table content delimiter
     = Returns ("An error occurred: " ++ str delimiter_error).
Proof.
  intros Hlen.
  assert (Hrd : reader content delimiter = Raises delimiter_error).
  { unfold reader. destruct delimiter as [| d [| d' rest]]; try reflexivity.
    simpl in Hlen. congruence. }
  unfold csv_to_md_table, csv_to_md_table_body. rewrite Hrd. simpl. auto.
Qed.

Lemma C10_witness :
  String.length ",," <> 1
  /\ String.length EmptyString <> 1
  /\ csv_to_md_table "Name,Age,City" ",,"
     = Returns ("An error occurred: " ++ dq ++ "delimiter" ++ dq
                ++ " must be a 1-character string")
  /\ csv_to_md_table "Name,Age,City" EmptyString
     = Returns ("An error occurred: " ++ dq ++ "delimiter" ++ dq
                ++ " must be a 1-character string").
Proof.
  split; [simpl; lia |]. split; [simpl; lia |]. split.
  - apply (C10_bad_delimiter "Name,Age,City" ",,"). simpl; lia.
  - apply (C10_bad_delimiter "Name,Age,City" EmptyString). simpl; lia.
Defined.

(* ===================================================================== *)
(** ** The reader: fuel, and reading character by character *)
(* ===================================================================== *)

Section ReaderLoops.

Variable d : ascii.

Lemma iternext_loop_read_records (fuel : nat) :
  (forall ls, length ls < fuel -> list_fuel fuel d ls = read_records d parse_reset ls) ->
  forall lines self,
    length lines <= fuel ->
    bind (iternext_loop d self lines) (after_iternext d fuel) = read_records d self lines.
Proof.
  intros IHfuel. induction lines as [| line rest IH]; intros self Hlen.
  - simpl. unfold end_of_input.
    destruct (negb (Nat.eqb (String.length (field self)) 0)
              || ParserState_eqb (state self) IN_QUOTED_FIELD); simpl.
    + destruct fuel; reflexivity.
    + reflexivity.
  - simpl in *. destruct (process_line d self line) as [self' | e]; simpl; auto.
    destruct (ParserState_eqb (state self') START_RECORD); simpl.
    + rewrite IHfuel by lia. reflexivity.
    + apply IH. lia.
Qed.

Lemma list_fuel_read_records (fuel : nat) :
  forall lines,
    length lines < fuel ->
    list_fuel fuel d lines = read_records d parse_reset lines.
Proof.
  induction fuel as [| fuel IH]; intros lines Hlen; [lia |].
  change (list_fuel (S fuel) d lines)
    with (bind (iternext_loop d parse_reset lines) (after_iternext d fuel)).
  destruct lines as [| line rest].
  - reflexivity.
  - apply iternext_loop_read_records.
    + exact IH.
    + simpl in *. lia.
Qed.

(** The fuel [list_] gives is enough: more fuel changes nothing. *)
Lemma list_fuel_enough (fuel : nat) (lines : list string) :
  length lines < fuel ->
  list_fuel fuel d lines = list_ (mkCsvReader d lines).
Proof.
  intros Hlen. unfold list_. cbn [input_iter dialect_delimiter].
  rewrite !list_fuel_read_records by lia. reflexivity.
Qed.

Lemma read_records_cons_char (c : ascii) (l : string) (ls : list string) (self : ReaderObj) :
  read_records d self (String c l :: ls)
  = (self1 <- parse_process_char d self (Ch c) ;; read_records d self1 (l :: ls)).
Proof.
  simpl. unfold process_line. simpl.
  destruct (parse_process_char d self (Ch c)); reflexivity.
Qed.

Lemma read_records_empty_line (ls : list string) (self : ReaderObj) :
  read_records d self (EmptyString :: ls)
  = end_line d self (fun self' => read_records d self' ls).
Proof.
  simpl. unfold process_line, end_line. simpl.
  destruct (parse_process_char d self EOL) as [self' | e]; reflexivity.
Qed.

Lemma run_read_records_both (s : string) :
  forall self,
    run d self s false = read_records d self (readlines s)
    /\ run d self s true = read_records d self (begun_lines s).
Proof.
  induction s as [| c s IH]; intros self.
  - split; [reflexivity |].
    change (begun_lines EmptyString) with [EmptyString].
    rewrite read_records_empty_line. reflexivity.
  - assert (H : forall m, run d self (String c s) m
                          = read_records d self (readlines (String c s))).
    { intros m. simpl run. simpl readlines.
      destruct (Ascii.eqb c LF) eqn:Hc.
      - rewrite read_records_cons_char.
        destruct (parse_process_char d self (Ch c)) as [self1 | e];
          cbn [bind]; [| reflexivity].
        rewrite read_records_empty_line. unfold end_line.
        destruct (parse_process_char d self1 EOL) as [self2 | e];
          cbn [bind]; [| reflexivity].
        destruct (ParserState_eqb (state self2) START_RECORD).
        + now rewrite (proj1 (IH parse_reset)).
        + now rewrite (proj1 (IH self2)).
      - assert (Hl : (match readlines s with
                      | [] => [String c EmptyString]
                      | l :: ls => String c l :: ls
                      end)
                     = (String c (hd EmptyString (begun_lines s)) :: tl (begun_lines s))).
        { unfold begun_lines. destruct (readlines s); reflexivity. }
        rewrite Hl, read_records_cons_char.
        destruct (parse_process_char d self (Ch c)) as [self1 | e];
          cbn [bind]; [| reflexivity].
        rewrite (proj2 (IH self1)).
        unfold begun_lines. destruct (readlines s); reflexivity. }
    split; [apply H |].
    rewrite H. unfold begun_lines. simpl readlines.
    destruct (Ascii.eqb c LF); [reflexivity |].
    destruct (readlines s); reflexivity.
Qed.

(** Parsing a text is running the state machine over its characters. *)
Lemma parsed_rows_run (content : string) :
  parsed_rows content (String d EmptyString) = run d parse_reset content false.
Proof.
  unfold parsed_rows, reader. cbn [bind].
  unfold list_. cbn [input_iter dialect_delimiter].
  rewrite list_fuel_read_records by lia.
  symmetry. apply run_read_records_both.
Qed.

End ReaderLoops.

(* ===================================================================== *)
(** ** The reader on plain and quoted cells *)
(* ===================================================================== *)

Lemma append_nil_r (s : string) : s ++ EmptyString = s.
Proof. induction s as [| c s IH]; simpl; [| rewrite IH]; reflexivity. Qed.

Lemma append_assoc (s1 s2 s3 : string) : (s1 ++ s2) ++ s3 = s1 ++ (s2 ++ s3).
Proof. induction s1 as [| c s1 IH]; simpl; [| rewrite IH]; reflexivity. Qed.

Lemma length_append (s1 s2 : string) :
  String.length (s1 ++ s2) = String.length s1 + String.length s2.
Proof. induction s1 as [| c s1 IH]; simpl; [| rewrite IH]; reflexivity. Qed.

Lemma parse_add_char_ok (st : ParserState) (fs : list string) (f : string) (c : ascii) :
  (N.of_nat (String.length f) < field_limit)%N ->
  parse_add_char (mkReader st fs f) c
  = Returns (mkReader st fs (f ++ String c EmptyString)).
Proof.
  intros Hlt. unfold parse_add_char. cbn [field state fields].
  destruct (N.leb_spec field_limit (N.of_nat (String.length f))); [lia | reflexivity].
Qed.

Lemma parse_add_char_full (st : ParserState) (fs : list string) (f : string) (c : ascii) :
  (field_limit <= N.of_nat (String.length f))%N ->
  parse_add_char (mkReader st fs f) c = Raises field_limit_error.
Proof.
  intros Hge. unfold parse_add_char. cbn [field state fields].
  destruct (N.leb_spec field_limit (N.of_nat (String.length f))); [reflexivity | lia].
Qed.

Section ReaderCells.

Variable d : ascii.
Hypothesis Hd : usual_delimiter d = true.

Lemma d_not_quote : Ascii.eqb d DQUOTE = false.
Proof.
  unfold usual_delimiter in Hd. apply andb_prop in Hd as [H _].
  now apply negb_true_iff in H.
Qed.

Lemma d_not_newline : is_newline d = false.
Proof.
  unfold usual_delimiter in Hd. apply andb_prop in Hd as [_ H].
  now apply negb_true_iff in H.
Qed.

Lemma d_not_LF : Ascii.eqb d LF = false.
Proof.
  pose proof d_not_newline as H. unfold is_newline in H.
  now apply orb_false_elim in H as [H _].
Qed.

Lemma field_char_inv (c : ascii) :
  field_char d c = true ->
  Ascii.eqb c d = false /\ is_newline c = false /\ Ascii.eqb c LF = false.
Proof.
  unfold field_char. intros H.
  apply andb_prop in H as [H1 H2].
  apply negb_true_iff in H1, H2.
  repeat split; auto.
  unfold is_newline in H2. now apply orb_false_elim in H2 as [H2 _].
Qed.

(** A delimiter, a line feed or the end of the input after a whole cell. *)
Lemma done_delim (st : ParserState) (fs : list string) (f rest : string) (m : bool) :
  cell_done st = true ->
  run d (mkReader st fs f) (String d rest) m
  = run d (mkReader START_FIELD (fs ++ [f]) EmptyString) rest true.
Proof.
  intros Hst. destruct st; try discriminate; step_state;
    rewrite ?d_not_newline, ?d_not_quote, ?Ascii.eqb_refl; step_state;
    rewrite d_not_LF; reflexivity.
Qed.

Lemma done_line_feed (st : ParserState) (fs : list string) (f rest : string) (m : bool) :
  cell_done st = true ->
  run d (mkReader st fs f) (String LF rest) m
  = (rows <- run d parse_reset rest false ;; Returns ((fs ++ [f])%list :: rows)).
Proof.
  intros Hst. pose proof d_not_LF as HdLF. rewrite Ascii.eqb_sym in HdLF.
  destruct st; try discriminate; step_state;
    change (is_newline LF) with true; change (Ascii.eqb LF DQUOTE) with false;
    cbn iota; rewrite ?HdLF; step_state; reflexivity.
Qed.


(** Field characters in an unquoted field are appended to the buffer. *)
Lemma run_in_field (p : string) :
  forall (fs : list string) (f rest : string) (m : bool),
    string_forallb (field_char d) p = true ->
    (N.of_nat (String.length (f ++ p)) <= field_limit)%N ->
    run d (mkReader IN_FIELD fs f) (p ++ rest) m
    = run d (mkReader IN_FIELD fs (f ++ p)) rest (begun m p).
Proof.
  induction p as [| c p IH]; intros fs f rest m Hplain Hlen.
  - now rewrite append_nil_r.
  - simpl in Hplain. apply andb_prop in Hplain as [Hc Hp].
    destruct (field_char_inv c Hc) as (Hcd & Hcn & Hcl).
    rewrite length_append in Hlen. simpl in Hlen.
    simpl append. step_state. rewrite Hcn, Hcd.
    rewrite parse_add_char_ok by lia. step_state. rewrite Hcl.
    rewrite IH; auto.
    + rewrite append_assoc. simpl. destruct p; reflexivity.
    + rewrite !length_append. simpl. lia.
Qed.

(** Inside quotes every character is appended, delimiters and line breaks
    included, and a doubled quote as one quote, up to the closing quote. *)
Lemma run_in_quoted (body : string) :
  forall (fs : list string) (f rest : string) (m : bool),
    (N.of_nat (String.length (f ++ body)) <= field_limit)%N ->
    run d (mkReader IN_QUOTED_FIELD fs f)
        (escape_quotes body ++ String DQUOTE rest) m
    = run d (mkReader QUOTE_IN_QUOTED_FIELD fs (f ++ body)) rest true.
Proof.
  induction body as [| c body IH]; intros fs f rest m Hlen.
  - rewrite append_nil_r. reflexivity.
  - rewrite length_append in Hlen. simpl in Hlen.
    assert (Hgo : forall m',
               run d (mkReader IN_QUOTED_FIELD fs (f ++ String c EmptyString))
                   (escape_quotes body ++ String DQUOTE rest) m'
               = run d (mkReader QUOTE_IN_QUOTED_FIELD fs (f ++ String c body))
                     rest true).
    { intros m'. rewrite IH.
      - now rewrite append_assoc.
      - rewrite !length_append. simpl. lia. }
    cbn [escape_quotes]. destruct (Ascii.eqb_spec c DQUOTE) as [-> | Hc].
    + simpl append. step_state. rewrite !Ascii.eqb_refl.
      change (Ascii.eqb DQUOTE LF) with false. step_state.
      rewrite parse_add_char_ok by lia. step_state. apply Hgo.
    + apply Ascii.eqb_neq in Hc.
      simpl append. step_state. rewrite Hc.
      rewrite parse_add_char_ok by lia. step_state.
      destruct (Ascii.eqb c LF).
      * unfold end_line. step_state. cbn [ParserState_eqb]. apply Hgo.
      * apply Hgo.
Qed.

(** Reading one cell that is not the empty unquoted one. *)
Lemma run_cell (st : ParserState) (fs : list string) (c : cell_src)
      (rest : string) (m : bool) :
  cell_start st = true ->
  cell_ok d c = true ->
  c <> Plain EmptyString ->
  exists st',
    cell_done st' = true
    /\ run d (mkReader st fs EmptyString) (cell_text c ++ rest) m
       = run d (mkReader st' fs (cell_value c)) rest true.
Proof.
  intros Hst Hok Hne. destruct c as [[| a p] | body]; [congruence | |].
  - exists IN_FIELD. split; [reflexivity |].
    simpl in Hok. apply andb_prop in Hok as [Hplain Hlen].
    apply andb_prop in Hplain as [Haq Hplain]. apply negb_true_iff in Haq.
    apply andb_prop in Hplain as [Ha Hp].
    destruct (field_char_inv a Ha) as (Had & Han & Hal).
    unfold within_limit in Hlen. apply N.leb_le in Hlen.
    assert (Hstep : parse_process_char d (mkReader st fs EmptyString) (Ch a)
                    = Returns (mkReader IN_FIELD fs (String a EmptyString))).
    { destruct st; try discriminate; step_state; rewrite Han; step_state;
        rewrite ?Han, Haq, Had;
        rewrite parse_add_char_ok by (unfold field_limit; simpl; lia);
        reflexivity. }
    cbn [cell_text cell_value]. simpl append. cbn [run]. rewrite Hstep.
    cbn [bind]. rewrite Hal.
    rewrite run_in_field; [| assumption | exact Hlen].
    simpl. destruct p; reflexivity.
  - exists QUOTE_IN_QUOTED_FIELD. split; [reflexivity |].
    simpl in Hok. unfold within_limit in Hok. apply N.leb_le in Hok.
    assert (Hstep : parse_process_char d (mkReader st fs EmptyString) (Ch DQUOTE)
                    = Returns (mkReader IN_QUOTED_FIELD fs EmptyString)).
    { destruct st; try discriminate; reflexivity. }
    cbn [cell_text cell_value]. simpl append. cbn [run]. rewrite Hstep.
    cbn [bind]. change (Ascii.eqb DQUOTE LF) with false. cbn iota.
    unfold dq. rewrite append_assoc. simpl append.
    rewrite run_in_quoted; auto.
Qed.

End ReaderCells.

(* ===================================================================== *)
(** ** The reader on rows and on texts of several rows *)
(* ===================================================================== *)

Lemma row_text_cons (d : ascii) (c : cell_src) (cs : list cell_src) :
  row_text d (c :: cs) = cell_text c ++ rest_text d cs.
Proof.
  unfold row_text, join. revert c.
  induction cs as [| c2 cs IH]; intros c.
  - simpl. now rewrite append_nil_r.
  - change (String.concat (String d EmptyString) (map cell_text (c :: c2 :: cs)))
      with (cell_text c ++ String d EmptyString
            ++ String.concat (String d EmptyString) (map cell_text (c2 :: cs))).
    rewrite IH. reflexivity.
Qed.

Lemma cell_src_empty_dec (c : cell_src) :
  {c = Plain EmptyString} + {c <> Plain EmptyString}.
Proof.
  destruct c as [[| a p] | b]; [left; reflexivity | right | right]; discriminate.
Qed.

Section ReaderRows.

Variable d : ascii.
Hypothesis Hd : usual_delimiter d = true.

(** What follows the row in the input, and what the reader does with the
    finished record there. *)
Variable tail : string.
Variable K : list string -> outcome (list (list string)).
Hypothesis Htail :
  forall st fs f,
    cell_done st = true ->
    run d (mkReader st fs f) tail true = K (fs ++ [f])%list.

Lemma run_after_cell (cs : list cell_src) :
  forall st fs f,
    cell_done st = true ->
    forallb (cell_ok d) cs = true ->
    run d (mkReader st fs f) (rest_text d cs ++ tail) true
    = K ((fs ++ [f]) ++ row_values cs)%list.
Proof.
  induction cs as [| c cs IH]; intros st fs f Hst Hok.
  - simpl. rewrite app_nil_r. now apply Htail.
  - simpl in Hok. apply andb_prop in Hok as [Hc Hcs].
    cbn [rest_text]. simpl append.
    rewrite (done_delim d Hd) by assumption.
    rewrite append_assoc.
    assert (Hgoal : forall st', cell_done st' = true ->
              run d (mkReader st' (fs ++ [f]) (cell_value c))
                  (rest_text d cs ++ tail) true
              = K ((fs ++ [f]) ++ row_values (c :: cs))%list).
    { intros st' Hst'. rewrite IH by assumption.
      simpl. now rewrite <- app_assoc. }
    destruct (cell_src_empty_dec c) as [-> | Hne].
    + now apply Hgoal.
    + destruct (run_cell d START_FIELD (fs ++ [f]) c
                         (rest_text d cs ++ tail) true eq_refl Hc Hne)
        as (st' & Hst' & Hrun).
      rewrite Hrun. now apply Hgoal.
Qed.

Lemma start_record_delim (fs : list string) (rest : string) (m : bool) :
  run d (mkReader START_RECORD fs EmptyString) (String d rest) m
  = run d (mkReader START_FIELD (fs ++ [EmptyString]) EmptyString) rest true.
Proof.
  cbn [run parse_process_char state]. rewrite (d_not_newline d Hd).
  unfold set_state. cbn [start_field state fields field].
  rewrite (d_not_newline d Hd), (d_not_quote d Hd), Ascii.eqb_refl.
  cbn [bind]. rewrite (d_not_LF d Hd). reflexivity.
Qed.

(** A whole row, read from the start of a record. *)
Lemma run_row (cs : list cell_src) (m : bool) :
  row_ok d cs = true ->
  run d parse_reset (row_text d cs ++ tail) m = K (row_values cs).
Proof.
  unfold row_ok. intros Hrow. apply andb_prop in Hrow as [Hnb Hok].
  apply negb_true_iff in Hnb.
  destruct cs as [| c cs]; [discriminate |].
  simpl in Hok. apply andb_prop in Hok as [Hc Hcs].
  rewrite row_text_cons, append_assoc. unfold parse_reset.
  destruct (cell_src_empty_dec c) as [-> | Hne].
  - destruct cs as [| c2 cs]; [discriminate |].
    simpl in Hcs. apply andb_prop in Hcs as [Hc2 Hcs].
    cbn [cell_text rest_text]. simpl append.
    rewrite start_record_delim. rewrite append_assoc.
    destruct (cell_src_empty_dec c2) as [-> | Hne2].
    + simpl append. rewrite run_after_cell by auto. reflexivity.
    + destruct (run_cell d START_FIELD ([] ++ [EmptyString]) c2
                         (rest_text d cs ++ tail) true eq_refl Hc2 Hne2)
        as (st' & Hst' & Hrun).
      rewrite Hrun. rewrite run_after_cell by auto.
      simpl. reflexivity.
  - destruct (run_cell d START_RECORD [] c (rest_text d cs ++ tail) m
                       eq_refl Hc Hne) as (st' & Hst' & Hrun).
    rewrite Hrun. rewrite run_after_cell by auto. reflexivity.
Qed.

End ReaderRows.

Section ReaderTexts.

Variable d : ascii.
Hypothesis Hd : usual_delimiter d = true.


(** A row followed by a line feed and more input. *)
Lemma run_row_line (cs : list cell_src) (rest : string) (m : bool) :
  row_ok d cs = true ->
  run d parse_reset (row_text d cs ++ String LF rest) m
  = (rows <- run d parse_reset rest false ;; Returns (row_values cs :: rows)).
Proof.
  intros Hrow.
  apply (run_row d Hd (String LF rest)
           (fun row => rows <- run d parse_reset rest false ;;
                       Returns (row :: rows))); [| exact Hrow].
  intros st fs f Hst. now apply done_line_feed.
Qed.

(** An empty line gives a record with no field at all. *)
Lemma run_blank_line (rest : string) (m : bool) :
  run d parse_reset (String LF rest) m
  = (rows <- run d parse_reset rest false ;; Returns ([] :: rows)).
Proof. reflexivity. Qed.

(** Several rows, each on its line. *)
Lemma run_rows_text (rs : list (list cell_src)) (rest : string) :
  forallb (row_ok d) rs = true ->
  run d parse_reset (rows_text d rs ++ rest) false
  = (rows <- run d parse_reset rest false ;;
     Returns (map row_values rs ++ rows)%list).
Proof.
  induction rs as [| cs rs IH]; intros Hok.
  - simpl. destruct (run d parse_reset rest false); reflexivity.
  - simpl in Hok. apply andb_prop in Hok as [Hcs Hrs].
    cbn [rows_text]. rewrite append_assoc. simpl append.
    rewrite run_row_line by assumption.
    rewrite IH by assumption.
    destruct (run d parse_reset rest false); reflexivity.
Qed.

End ReaderTexts.

(* ===================================================================== *)
(** ** When the reader yields no row, and when it fails *)
(* ===================================================================== *)

Section ReaderTotals.

Variable d : ascii.

Lemma after_EOL (self self' : ReaderObj) :
  parse_process_char d self EOL = Returns self' ->
  state self' = START_RECORD \/ state self' = IN_QUOTED_FIELD.
Proof.
  destruct self as [st fs f]. destruct st; simpl; intros H; inversion H; auto.
Qed.

Lemma end_of_input_in_quoted (self : ReaderObj) :
  state self = IN_QUOTED_FIELD -> end_of_input self <> [].
Proof.
  intros Hst. unfold end_of_input. rewrite Hst. cbn [ParserState_eqb].
  rewrite orb_true_r. discriminate.
Qed.

Lemma end_line_not_nil (self : ReaderObj)
      (k : ReaderObj -> outcome (list (list string))) :
  (forall self', state self' = IN_QUOTED_FIELD -> k self' <> Returns []) ->
  end_line d self k <> Returns [].
Proof.
  intros Hk. unfold end_line.
  destruct (parse_process_char d self EOL) as [self' | e] eqn:Heol;
    cbn [bind]; [| discriminate].
  destruct (after_EOL _ _ Heol) as [Hst | Hst]; rewrite Hst; cbn [ParserState_eqb].
  - destruct (k parse_reset); cbn [bind]; discriminate.
  - now apply Hk.
Qed.

(** Once a line has begun, or inside quotes, or with input left, reading
    gives at least one record unless it fails. *)
Lemma run_not_nil (s : string) :
  forall self m,
    m = true \/ state self = IN_QUOTED_FIELD \/ s <> EmptyString ->
    run d self s m <> Returns [].
Proof.
  induction s as [| c s IH]; intros self m Hcase.
  - destruct m; cbn [run].
    + apply end_line_not_nil. intros self' Hst Heq.
      inversion Heq. now apply (end_of_input_in_quoted self').
    + destruct Hcase as [Hm | [Hst | Hs]]; [discriminate | | congruence].
      intros Heq. inversion Heq. now apply (end_of_input_in_quoted self).
  - cbn [run].
    destruct (parse_process_char d self (Ch c)) as [self1 | e];
      cbn [bind]; [| discriminate].
    destruct (Ascii.eqb c LF).
    + apply end_line_not_nil. intros self' Hst. apply IH. auto.
    + apply IH. auto.
Qed.

(** Parsing yields zero rows for the empty input only. *)
Lemma parsed_rows_nil_iff (content : string) :
  parsed_rows content (String d EmptyString) = Returns []
  <-> content = EmptyString.
Proof.
  rewrite parsed_rows_run. split.
  - intros Hrun. destruct content as [| c s]; [reflexivity |].
    exfalso. revert Hrun. apply run_not_nil. right. right. discriminate.
  - intros ->. reflexivity.
Qed.

(** A quoted field that outgrows the field size limit makes the reader
    fail, wherever its closing quote is. *)
Lemma run_in_quoted_over_limit (body : string) :
  forall (fs : list string) (f rest : string) (m : bool),
    (N.of_nat (String.length f) <= field_limit)%N ->
    (field_limit < N.of_nat (String.length (f ++ body)))%N ->
    run d (mkReader IN_QUOTED_FIELD fs f)
        (escape_quotes body ++ String DQUOTE rest) m
    = Raises field_limit_error.
Proof.
  induction body as [| c body IH]; intros fs f rest m Hf Hlen.
  - rewrite append_nil_r in Hlen. lia.
  - rewrite length_append in Hlen. cbn [String.length] in Hlen.
    assert (Hnext : forall m',
               (N.of_nat (String.length f) < field_limit)%N ->
               run d (mkReader IN_QUOTED_FIELD fs (f ++ String c EmptyString))
                   (escape_quotes body ++ String DQUOTE rest) m'
               = Raises field_limit_error).
    { intros m' Hlt. apply IH.
      - rewrite length_append. simpl. lia.
      - rewrite !length_append. simpl. lia. }
    destruct (N.ltb_spec (N.of_nat (String.length f)) field_limit) as [Hlt | Hge].
    + cbn [escape_quotes]. destruct (Ascii.eqb_spec c DQUOTE) as [-> | Hc].
      * simpl append. cbn [run parse_process_char state bind].
        rewrite !Ascii.eqb_refl. change (Ascii.eqb DQUOTE LF) with false.
        unfold set_state. cbn [run parse_process_char state fields field bind].
        rewrite parse_add_char_ok by assumption.
        cbn [bind]. unfold set_state. cbn [state fields field].
        now apply Hnext.
      * apply Ascii.eqb_neq in Hc.
        simpl append. cbn [run parse_process_char state bind]. rewrite Hc.
        rewrite parse_add_char_ok by assumption. cbn [bind].
        destruct (Ascii.eqb c LF).
        -- unfold end_line. cbn [parse_process_char state bind ParserState_eqb].
           now apply Hnext.
        -- now apply Hnext.
    + cbn [escape_quotes]. destruct (Ascii.eqb_spec c DQUOTE) as [-> | Hc].
      * simpl append. cbn [run parse_process_char state bind].
        rewrite !Ascii.eqb_refl. change (Ascii.eqb DQUOTE LF) with false.
        unfold set_state. cbn [run parse_process_char state fields field bind].
        rewrite parse_add_char_full by assumption. reflexivity.
      * apply Ascii.eqb_neq in Hc.
        simpl append. cbn [run parse_process_char state bind]. rewrite Hc.
        rewrite parse_add_char_full by assumption. reflexivity.
Qed.

End ReaderTotals.

(** A text of [n] copies of one character. *)
Lemma length_string_repeat (c : ascii) (n : nat) :
  String.length (string_repeat c n) = n.
Proof. induction n as [| n IH]; simpl; [| rewrite IH]; reflexivity. Qed.

(** The three ways in which parsing fails, each reported as a string. *)
Lemma oversized_field_is_reported (n : nat) :
  (field_limit < N.of_nat n)%N ->
  csv_to_md_table (String DQUOTE (escape_quotes (string_repeat "," n) ++ dq)) ","
  = Returns "An error occurred: field larger than field limit (131072)".
Proof.
  intros Hn.
  apply (csv_to_md_table_raises _ _ field_limit_error).
  rewrite parsed_rows_run. unfold parse_reset, dq.
  cbn [run parse_process_char start_field state is_newline bind].
  change (is_newline DQUOTE) with false. cbn iota.
  unfold set_state. cbn [start_field state fields field is_newline].
  change (is_newline DQUOTE) with false. rewrite Ascii.eqb_refl.
  cbn [bind]. change (Ascii.eqb DQUOTE LF) with false. cbn iota.
  apply run_in_quoted_over_limit.
  - unfold field_limit. simpl. lia.
  - simpl append. now rewrite length_string_repeat.
Qed.

Example stray_carriage_return_is_reported :
  csv_to_md_table ("a,b" ++ String CR "c") ","
  = Returns ("An error occurred: " ++ str newline_error).
Proof. reflexivity. Qed.

Example bad_delimiter_is_reported :
  csv_to_md_table "a,b" ",,"
  = Returns ("An error occurred: " ++ str delimiter_error).
Proof. reflexivity. Qed.

(* ===================================================================== *)
(** ** Rows that hold a quoted cell *)
(* ===================================================================== *)




(* ===================================================================== *)
(** ** The reader on other line ends and on unclosed quotes *)
(* ===================================================================== *)

Section ReaderLineEnds.

Variable d : ascii.
Hypothesis Hd : usual_delimiter d = true.








(** A quote that is never closed takes everything up to the end of the
    input into its cell. *)
Lemma run_in_quoted_open (body : string) :
  forall (fs : list string) (f : string) (m : bool),
    (N.of_nat (String.length (f ++ body)) <= field_limit)%N ->
    run d (mkReader IN_QUOTED_FIELD fs f) (escape_quotes body) m
    = Returns [(fs ++ [(f ++ body)%string])%list].
Proof.
  induction body as [| c body IH]; intros fs f m Hlen.
  - rewrite append_nil_r. cbn [escape_quotes run].
    destruct m; unfold end_line, end_of_input;
      cbn [parse_process_char state bind ParserState_eqb field fields
           parse_save_field];
      rewrite orb_true_r; reflexivity.
  - rewrite length_append in Hlen. simpl in Hlen.
    assert (Hgo : forall m',
               run d (mkReader IN_QUOTED_FIELD fs (f ++ String c EmptyString))
                   (escape_quotes body) m'
               = Returns [(fs ++ [(f ++ String c body)%string])%list]).
    { intros m'. rewrite IH.
      - now rewrite append_assoc.
      - rewrite !length_append. simpl. lia. }
    cbn [escape_quotes]. destruct (Ascii.eqb_spec c DQUOTE) as [-> | Hc].
    + step_state. rewrite !Ascii.eqb_refl.
      change (Ascii.eqb DQUOTE LF) with false. step_state.
      rewrite parse_add_char_ok by lia. step_state. apply Hgo.
    + apply Ascii.eqb_neq in Hc.
      step_state. rewrite Hc.
      rewrite parse_add_char_ok by lia. step_state.
      destruct (Ascii.eqb c LF).
      * unfold end_line. step_state. cbn [ParserState_eqb]. apply Hgo.
      * apply Hgo.
Qed.

Lemma run_open_quote (st : ParserState) (fs : list string) (body : string) (m : bool) :
  cell_start st = true ->
  within_limit body = true ->
  run d (mkReader st fs EmptyString) (String DQUOTE (escape_quotes body)) m
  = Returns [(fs ++ [body])%list].
Proof.
  intros Hst Hlen. unfold within_limit in Hlen. apply N.leb_le in Hlen.
  assert (Hstep : parse_process_char d (mkReader st fs EmptyString) (Ch DQUOTE)
                  = Returns (mkReader IN_QUOTED_FIELD fs EmptyString)).
  { destruct st; try discriminate; reflexivity. }
  cbn [run]. rewrite Hstep. cbn [bind].
  change (Ascii.eqb DQUOTE LF) with false. cbn iota.
  now rewrite run_in_quoted_open.
Qed.

(** The cells [pre] of a line and then a quote that opens the next cell:
    what the reader does from the quote on decides the outcome. *)
Lemma run_cells_then_quote (pre : list cell_src) (after : string)
      (K : list string -> outcome (list (list string))) (m : bool) :
  (forall st fs m',
      cell_start st = true ->
      run d (mkReader st fs EmptyString) (String DQUOTE after) m' = K fs) ->
  forallb (cell_ok d) pre = true ->
  run d parse_reset (cells_then d pre ++ String DQUOTE after) m
  = K (row_values pre).
Proof.
  intros Hq Hpre. destruct pre as [| c pre].
  - now apply Hq.
  - destruct (is_blank (c :: pre)) eqn:Hblank.
    + assert (Hc : c :: pre = [Plain EmptyString]).
      { destruct c as [[| a p] | b]; destruct pre; try discriminate. reflexivity. }
      rewrite Hc. cbn [cells_then row_text join String.concat map cell_text].
      simpl append. unfold parse_reset. rewrite (start_record_delim d Hd).
      now rewrite Hq.
    + assert (Hrow : row_ok d (c :: pre) = true).
      { unfold row_ok. now rewrite Hblank, Hpre. }
      cbn [cells_then]. rewrite append_assoc. simpl append.
      apply (run_row d Hd (String d (String DQUOTE after))
               (fun row => K row)); [| exact Hrow].
      intros st fs f Hst.
      rewrite (done_delim d Hd) by assumption.
      now apply Hq.
Qed.

Lemma run_open_row (pre : list cell_src) (body : string) (m : bool) :
  forallb (cell_ok d) pre = true ->
  within_limit body = true ->
  run d parse_reset (open_row_text d pre body) m
  = Returns [(row_values pre ++ [body])%list].
Proof.
  intros Hpre Hbody. unfold open_row_text.
  apply (run_cells_then_quote pre (escape_quotes body)
           (fun fs => Returns [(fs ++ [body])%list])); [| exact Hpre].
  intros st fs m' Hst. now apply run_open_quote.
Qed.

Lemma run_quote_over_limit (st : ParserState) (fs : list string)
      (body rest : string) (m : bool) :
  cell_start st = true ->
  (field_limit < N.of_nat (String.length body))%N ->
  run d (mkReader st fs EmptyString)
      (String DQUOTE (escape_quotes body ++ String DQUOTE rest)) m
  = Raises field_limit_error.
Proof.
  intros Hst Hlen.
  assert (Hstep : parse_process_char d (mkReader st fs EmptyString) (Ch DQUOTE)
                  = Returns (mkReader IN_QUOTED_FIELD fs EmptyString)).
  { destruct st; try discriminate; reflexivity. }
  cbn [run]. rewrite Hstep. cbn [bind].
  change (Ascii.eqb DQUOTE LF) with false. cbn iota.
  apply run_in_quoted_over_limit.
  - unfold field_limit. simpl. lia.
  - exact Hlen.
Qed.

Lemma run_row_over_limit (pre : list cell_src) (body rest : string) (m : bool) :
  forallb (cell_ok d) pre = true ->
  (field_limit < N.of_nat (String.length body))%N ->
  run d parse_reset (open_row_text d pre body ++ String DQUOTE rest) m
  = Raises field_limit_error.
Proof.
  intros Hpre Hlen. unfold open_row_text.
  rewrite append_assoc. simpl append.
  apply (run_cells_then_quote pre (escape_quotes body ++ String DQUOTE rest)
           (fun _ => Raises field_limit_error)); [| exact Hpre].
  intros st fs m' Hst. now apply run_quote_over_limit.
Qed.

End ReaderLineEnds.

(* ===================================================================== *)
(** ** Reading a text in two parts *)
(* ===================================================================== *)

Section ReaderPrefix.

Variable d : ascii.

Lemma run_app (s : string) :
  forall self rest m,
    run d self (s ++ rest) m
    = (r <- run_prefix d self s m ;;
       rows <- run d (fst (snd r)) rest (snd (snd r)) ;;
       Returns (fst r ++ rows)%list).
Proof.
  induction s as [| c s IH]; intros self rest m.
  - cbn [append run_prefix bind fst snd].
    destruct (run d self rest m); reflexivity.
  - simpl append. cbn [run run_prefix].
    destruct (parse_process_char d self (Ch c)) as [self1 | e];
      cbn [bind]; [| reflexivity].
    destruct (Ascii.eqb c LF).
    + unfold end_line.
      destruct (parse_process_char d self1 EOL) as [self2 | e];
        cbn [bind]; [| reflexivity].
      destruct (ParserState_eqb (state self2) START_RECORD).
      * rewrite IH.
        destruct (run_prefix d parse_reset s false) as [[rows1 [self' m']] | e];
          cbn [bind fst snd]; [| reflexivity].
        destruct (run d self' rest m'); reflexivity.
      * apply IH.
    + apply IH.
Qed.

(** After whole records the rest is read as if it stood alone. *)
Lemma run_after_records (pre rest : string) (rows : list (list string)) :
  reads_to d pre rows ->
  run d parse_reset (pre ++ rest) false
  = (more <- run d parse_reset rest false ;; Returns (rows ++ more)%list).
Proof.
  unfold reads_to. intros Hpre. rewrite run_app, Hpre. reflexivity.
Qed.

Lemma parsed_after_records (pre rest : string) (rows more : list (list string)) :
  reads_to d pre rows ->
  run d parse_reset rest false = Returns more ->
  parsed_rows (pre ++ rest) (String d EmptyString) = Returns (rows ++ more)%list.
Proof.
  intros Hpre Hrest.
  rewrite parsed_rows_run, (run_after_records _ _ _ Hpre), Hrest. reflexivity.
Qed.

Lemma raises_after_records (pre rest : string) (rows : list (list string)) (e : exn) :
  reads_to d pre rows ->
  run d parse_reset rest false = Raises e ->
  parsed_rows (pre ++ rest) (String d EmptyString) = Raises e.
Proof.
  intros Hpre Hrest.
  rewrite parsed_rows_run, (run_after_records _ _ _ Hpre), Hrest. reflexivity.
Qed.

(** An empty line, ended by a line feed alone or with a carriage return
    before it, gives a record with no field. *)
Lemma run_blank_crlf (rest : string) (m : bool) :
  run d parse_reset (String CR (String LF rest)) m
  = (rows <- run d parse_reset rest false ;; Returns ([] :: rows)).
Proof. reflexivity. Qed.

End ReaderPrefix.

(* ===================================================================== *)
(** ** Further properties of csv_to_md_table *)
(* ===================================================================== *)

Lemma csv_to_md_table_of_rows (content delimiter : string)
      (rows : list (list string)) :
  parsed_rows content delimiter = Returns rows ->
  csv_to_md_table content delimiter = Returns (md_table_of rows).
Proof.
  intros H. destruct rows as [| header_row data].
  - unfold parsed_rows in H. unfold csv_to_md_table, csv_to_md_table_body.
    destruct (reader content delimiter) as [rd | e]; simpl in *; [| discriminate].
    now rewrite H.
  - now apply csv_to_md_table_rows.
Qed.


Lemma parsed_rows_text (d : ascii) (rs : list (list cell_src)) :
  usual_delimiter d = true ->
  forallb (row_ok d) rs = true ->
  parsed_rows (rows_text d rs) (String d EmptyString)
  = Returns (map row_values rs).
Proof.
  intros Hd Hrs.
  rewrite parsed_rows_run, <- (append_nil_r (rows_text d rs)).
  rewrite run_rows_text by assumption.
  cbn [run end_of_input parse_reset field state String.length Nat.eqb negb
       ParserState_eqb orb bind].
  now rewrite app_nil_r.
Qed.

Lemma table_of_rows_text (d : ascii) (rs : list (list cell_src)) :
  usual_delimiter d = true ->
  forallb (row_ok d) rs = true ->
  csv_to_md_table (rows_text d rs) (String d EmptyString)
  = Returns (md_table_of (map row_values rs)).
Proof.
  intros Hd Hrs. apply csv_to_md_table_of_rows. now apply parsed_rows_text.
Qed.

(** X1. Reading back what was written: for rows of cells written as CSV
    text, one row per line, cells plain or quoted, the reader returns the
    cells' values, and the table is the one of these values. *)
Theorem X1_table_of_written_rows (d : ascii) (rs : list (list cell_src)) :
  usual_delimiter d = true ->
  forallb (row_ok d) rs = true ->
  parsed_rows (rows_text d rs) (String d EmptyString) = Returns (map row_values rs)
  /\ csv_to_md_table (rows_text d rs) (String d EmptyString)
     = Returns (md_table_of (map row_values rs)).
Proof.
  intros Hd Hrs. split.
  - now apply parsed_rows_text.
  - now apply table_of_rows_text.
Qed.

Lemma X1_witness :
  usual_delimiter ";" = true
  /\ forallb (row_ok ";")
       [[Plain "Name"; Plain "City"]; [Quoted "Doe; Jane"; Plain "Oslo"; Plain "x"]]
     = true
  /\ csv_to_md_table
       ("Name;City" ++ nl ++ dq ++ "Doe; Jane" ++ dq ++ ";Oslo;x" ++ nl) ";"
     = Returns ("| Name | City |" ++ nl ++ "| --- | --- |" ++ nl
                ++ "| Doe; Jane | Oslo |").
Proof.
  split; [reflexivity |]. split; [reflexivity |].
  apply (proj2 (X1_table_of_written_rows
                  ";" [[Plain "Name"; Plain "City"];
                       [Quoted "Doe; Jane"; Plain "Oslo"; Plain "x"]]
                  eq_refl eq_refl)).
Defined.



(** X3. The table does not depend on the delimiter: the same rows written
    with one delimiter and read with it give the same table as written with
    another and read with that one. *)
Theorem X3_delimiter_independence
        (d1 d2 : ascii) (rs : list (list cell_src)) :
  usual_delimiter d1 = true ->
  usual_delimiter d2 = true ->
  forallb (row_ok d1) rs = true ->
  forallb (row_ok d2) rs = true ->
  csv_to_md_table (rows_text d1 rs) (String d1 EmptyString)
  = csv_to_md_table (rows_text d2 rs) (String d2 EmptyString).
Proof.
  intros Hd1 Hd2 H1 H2.
  rewrite (table_of_rows_text d1 rs Hd1 H1).
  rewrite (table_of_rows_text d2 rs Hd2 H2).
  reflexivity.
Qed.

Lemma X3_witness :
  usual_delimiter "," = true
  /\ usual_delimiter ";" = true
  /\ csv_to_md_table ("Name,Age,City" ++ nl ++ "John,30,New York" ++ nl) ","
     = csv_to_md_table ("Name;Age;City" ++ nl ++ "John;30;New York" ++ nl) ";".
Proof.
  split; [reflexivity |]. split; [reflexivity |].
  apply (X3_delimiter_independence
           "," ";" [[Plain "Name"; Plain "Age"; Plain "City"];
                    [Plain "John"; Plain "30"; Plain "New York"]]
           eq_refl eq_refl eq_refl eq_refl).
Defined.





(** X6. A double-quoted field of more characters than the field size limit
    makes the conversion fail with the reader's message.  This holds for a
    quoted field that opens the input, whatever the delimiter, and, for a
    delimiter that is neither quote nor line break, for a quoted field at
    the start of any cell: after any text made of whole records and after
    any well-formed cells on its line.  What follows the closing quote
    does not matter. *)
Theorem X6_oversized_quoted_field :
  (forall (d : ascii) (body rest : string),
      (field_limit < N.of_nat (String.length body))%N ->
      csv_to_md_table (String DQUOTE (escape_quotes body ++ String DQUOTE rest))
                      (String d EmptyString)
      = Returns ("An error occurred: " ++ str field_limit_error))
  /\ (forall (d : ascii) (earlier : string) (rows : list (list string))
             (pre : list cell_src) (body rest : string),
         usual_delimiter d = true ->
         reads_to d earlier rows ->
         forallb (cell_ok d) pre = true ->
         (field_limit < N.of_nat (String.length body))%N ->
         csv_to_md_table (earlier ++ open_row_text d pre body ++ String DQUOTE rest)
                         (String d EmptyString)
         = Returns ("An error occurred: " ++ str field_limit_error)).
Proof.
  split.
  - intros d body rest Hlen.
    apply csv_to_md_table_raises.
    rewrite parsed_rows_run. unfold parse_reset.
    now apply run_quote_over_limit.
  - intros d earlier rows pre body rest Hd Hearlier Hpre Hlen.
    apply csv_to_md_table_raises.
    apply (raises_after_records d earlier _ rows); [exact Hearlier |].
    now apply run_row_over_limit.
Qed.

Lemma X6_witness :
  usual_delimiter "," = true
  /\ reads_to "," ("a,b" ++ nl) [["a"; "b"]]
  /\ forallb (cell_ok ",") [Plain "1"] = true
  /\ (field_limit < N.of_nat (String.length (string_repeat "x" (N.to_nat 131073))))%N
  /\ csv_to_md_table
       (("a,b" ++ nl)
        ++ open_row_text "," [Plain "1"] (string_repeat "x" (N.to_nat 131073))
        ++ String DQUOTE ",3")
       ","
     = Returns ("An error occurred: " ++ str field_limit_error).
Proof.
  assert (Hlen : (field_limit
                  < N.of_nat (String.length (string_repeat "x" (N.to_nat 131073))))%N).
  { rewrite length_string_repeat, N2Nat.id. reflexivity. }
  split; [reflexivity |]. split; [reflexivity |]. split; [reflexivity |].
  split; [exact Hlen |].
  exact (proj2 X6_oversized_quoted_field
               ","%char ("a,b" ++ nl) [["a"; "b"]] [Plain "1"]
               (string_repeat "x" (N.to_nat 131073)) ",3"
               eq_refl eq_refl eq_refl Hlen).
Defined.

(** X7. A quote that opens a cell and is never closed is not an error as
    long as the cell stays within the field size limit: after any text
    made of whole records and any well-formed cells on its line, the cell
    takes all the remaining text, line feeds and delimiters included (a
    doubled quote counts as one quote), the row ends with the input, and
    the table is rendered with that cell as the last of the last row. *)
Theorem X7_unclosed_quote
        (d : ascii) (earlier : string) (rows : list (list string))
        (pre : list cell_src) (body : string) :
  usual_delimiter d = true ->
  reads_to d earlier rows ->
  forallb (cell_ok d) pre = true ->
  within_limit body = true ->
  csv_to_md_table (earlier ++ open_row_text d pre body) (String d EmptyString)
  = Returns (md_table_of (rows ++ [row_values pre ++ [body]])%list).
Proof.
  intros Hd Hearlier Hpre Hbody.
  apply csv_to_md_table_of_rows.
  apply (parsed_after_records d earlier _ rows); [exact Hearlier |].
  now apply run_open_row.
Qed.

Lemma X7_witness :
  usual_delimiter "," = true
  /\ reads_to "," ("a,b" ++ nl) [["a"; "b"]]
  /\ forallb (cell_ok ",") [Plain "1"] = true
  /\ within_limit ("2" ++ nl ++ "3,4" ++ nl) = true
  /\ csv_to_md_table ("a,b" ++ nl ++ "1," ++ dq ++ "2" ++ nl ++ "3,4" ++ nl) ","
     = Returns ("| a | b |" ++ nl ++ "| --- | --- |" ++ nl
                ++ "| 1 | 2" ++ nl ++ "3,4" ++ nl ++ " |").
Proof.
  repeat (split; [reflexivity |]).
  apply (X7_unclosed_quote
           "," ("a,b" ++ nl) [["a"; "b"]] [Plain "1"] ("2" ++ nl ++ "3,4" ++ nl)
           eq_refl eq_refl eq_refl eq_refl).
Defined.

(** X8. The empty-input sentinel is returned for the empty input read with
    a one-character delimiter, and for nothing else: no other input, and no
    failure, gives "Empty CSV data.". *)
Theorem X8_sentinel_only_for_empty_input (content delimiter : string) :
  csv_to_md_table content delimiter = Returns "Empty CSV data."
  <-> content = EmptyString /\ String.length delimiter = 1.
Proof.
  split.
  - intros Hres.
    destruct (parsed_rows content delimiter) as [[| header_row data] | e] eqn:Hp.
    + unfold parsed_rows, reader in Hp.
      destruct delimiter as [| d [| d' delimiter]]; try discriminate.
      split; [| reflexivity].
      now apply (parsed_rows_nil_iff d).
    + rewrite (csv_to_md_table_rows _ _ _ _ Hp) in Hres. discriminate.
    + rewrite (csv_to_md_table_raises _ _ _ Hp) in Hres. discriminate.
  - intros [-> Hlen].
    destruct delimiter as [| d [| d' delimiter]]; try discriminate.
    reflexivity.
Qed.

(** X9. The first character of the result tells the three outcomes apart:
    it is "A" when parsing failed, "E" when there was no row, and the
    vertical bar when a table was rendered. *)
Theorem X9_first_character (content delimiter : string) :
  exists s,
    csv_to_md_table content delimiter = Returns s
    /\ match parsed_rows content delimiter with
       | Raises _ => String.get 0 s = Some "A"%char
       | Returns [] => String.get 0 s = Some "E"%char
       | Returns (_ :: _) => String.get 0 s = Some "|"%char
       end.
Proof.
  destruct (parsed_rows content delimiter) as [[| header_row data] | e] eqn:Hp.
  - exists "Empty CSV data.". split; [| reflexivity].
    apply (csv_to_md_table_of_rows _ _ []). exact Hp.
  - eexists. split; [exact (csv_to_md_table_rows _ _ _ _ Hp) |]. reflexivity.
  - eexists. split; [exact (csv_to_md_table_raises _ _ _ Hp) |]. reflexivity.
Qed.

Lemma normalize_row_nil_header (row : list string) : normalize_row [] row = [].
Proof.
  pose proof (normalize_row_length [] row) as H.
  destruct (normalize_row [] row); [reflexivity | discriminate].
Qed.

(** X10. When the input begins with an empty line the header has no cell,
    so every row is cut to no cell at all: the table is nothing but lines
    "|  |", two for header and separator and one per further row, whatever
    these rows hold. *)
Theorem X10_leading_empty_line
        (d : ascii) (rest : string) (rows : list (list string)) :
  parsed_rows rest (String d EmptyString) = Returns rows ->
  csv_to_md_table (nl ++ rest) (String d EmptyString)
  = Returns (join nl (repeat "|  |" (2 + length rows))).
Proof.
  intros Hrest. rewrite parsed_rows_run in Hrest.
  assert (Hp : parsed_rows (nl ++ rest) (String d EmptyString)
               = Returns ([] :: rows)).
  { rewrite parsed_rows_run. unfold nl. simpl append.
    rewrite run_blank_line, Hrest. reflexivity. }
  rewrite (csv_to_md_table_rows _ _ _ _ Hp). do 2 f_equal.
  cbn [length repeat Nat.add]. do 2 f_equal.
  clear. induction rows as [| row rows IH]; [reflexivity |].
  cbn [map length repeat]. now rewrite normalize_row_nil_header, IH.
Qed.

Lemma X10_witness :
  parsed_rows ("Name,Age" ++ nl ++ "John,30") ","
  = Returns [["Name"; "Age"]; ["John"; "30"]]
  /\ csv_to_md_table (nl ++ "Name,Age" ++ nl ++ "John,30") ","
     = Returns ("|  |" ++ nl ++ "|  |" ++ nl ++ "|  |" ++ nl ++ "|  |").
Proof.
  split; [reflexivity |].
  apply (X10_leading_empty_line "," ("Name,Age" ++ nl ++ "John,30")
                                [["Name"; "Age"]; ["John"; "30"]]).
  reflexivity.
Defined.

(* ===================================================================== *)
(** ** Properties of main *)
(* ===================================================================== *)

Lemma csv_to_md_table_returns (content delimiter : string) :
  exists md, csv_to_md_table content delimiter = Returns md.
Proof.
  unfold csv_to_md_table.
  destruct (csv_to_md_table_body content delimiter); simpl; eauto.
Qed.

Lemma read_source (args : Cli.Namespace) (env : Cli.Env) :
  match Cli.truthy (Cli.input args) with
  | Some p => read_csv_file (text_mode_open (Cli.files env)) (Path p)
  | None => read_csv_file (text_mode_open (Cli.files env))
                          (FileObj (Cli.stdin_read env))
  end
  = match Cli.source_read args env with
    | Returns content => Returns content
    | Raises cause =>
        Raises (mkExn IOError
                      ("Error occurred while reading CSV file: " ++ str cause))
    end.
Proof.
  unfold Cli.source_read, read_csv_file.
  destruct (Cli.truthy (Cli.input args)); reflexivity.
Qed.

Lemma main_try_read_raises (args : Cli.Namespace) (env : Cli.Env) (cause : exn) :
  Cli.source_read args env = Raises cause ->
  Cli.main_try args env
  = (Cli.no_effects,
     Raises (mkExn IOError
                   ("Error occurred while reading CSV file: " ++ str cause))).
Proof.
  intros H. unfold Cli.main_try. rewrite read_source, H. reflexivity.
Qed.

Lemma main_try_read_returns (args : Cli.Namespace) (env : Cli.Env)
      (content md : string) :
  Cli.source_read args env = Returns content ->
  csv_to_md_table content (Cli.delimiter args) = Returns md ->
  Cli.main_try args env
  = match Cli.truthy (Cli.output args) with
    | Some p =>
        match Cli.open_write env p with
        | Raises e => (Cli.no_effects, Raises e)
        | Returns _ =>
            match Cli.write_close env p md with
            | Raises e => (Cli.mkEffects EmptyString (Some p) None, Raises e)
            | Returns _ =>
                (Cli.mkEffects EmptyString (Some p) (Some (p, md)), Returns tt)
            end
        end
    | None =>
        match Cli.print_stdout env md with
        | Raises e => (Cli.no_effects, Raises e)
        | Returns _ => (Cli.mkEffects (md ++ nl) None None, Returns tt)
        end
    end.
Proof.
  intros Hread Hmd. unfold Cli.main_try. rewrite read_source, Hread, Hmd.
  reflexivity.
Qed.

Lemma main_ends (args : Cli.Namespace) (env : Cli.Env) :
  Cli.parse_args env = Cli.Parsed args ->
  main_end args env (Cli.main env).
Proof.
  intros Hargs. unfold Cli.main. rewrite Hargs.
  destruct (Cli.source_read args env) as [content | cause] eqn:Hread.
  - destruct (csv_to_md_table_returns content (Cli.delimiter args)) as [md Hmd].
    rewrite (main_try_read_returns _ _ _ _ Hread Hmd).
    destruct (Cli.truthy (Cli.output args)) as [path |] eqn:Hout.
    + destruct (Cli.open_write env path) as [[] | e] eqn:Hopen.
      * destruct (Cli.write_close env path md) as [[] | e] eqn:Hwrite.
        -- now apply (end_written args env content md path).
        -- now apply (end_write_raises args env content md path e).
      * now apply (end_open_raises args env content md path e).
    + destruct (Cli.print_stdout env md) as [[] | e] eqn:Hprint.
      * now apply (end_printed args env content md).
      * now apply (end_print_raises args env content md e).
  - rewrite (main_try_read_raises _ _ _ Hread).
    cbn [Cli.printed Cli.opened Cli.wrote Cli.no_effects str].
    rewrite <- append_assoc. now apply end_read_raises.
Qed.

(** X11. When the command line is parsed and the input cannot be read, be
    it a file or the standard input, nothing is printed to the standard
    output, no file is opened or written, the standard error gets
    "Error: Error occurred while reading CSV file: " with the message of
    the cause and a line feed, and the exit code is 1. *)
Theorem X11_main_read_failure
        (env : Cli.Env) (args : Cli.Namespace) (cause : exn) :
  Cli.parse_args env = Cli.Parsed args ->
  Cli.source_read args env = Raises cause ->
  Cli.main env
  = Cli.mkProcess EmptyString
                  ("Error: Error occurred while reading CSV file: "
                   ++ str cause ++ nl)
                  None None 1.
Proof.
  intros Hargs Hread.
  destruct (main_ends args env Hargs); congruence.
Qed.

Lemma X11_witness :
  Cli.source_read (Cli.mkNamespace (Some "missing.csv") None ",")
                  (example_env (Cli.mkNamespace (Some "missing.csv") None ","))
  = Raises (mkExn (OtherError "FileNotFoundError")
                  "[Errno 2] No such file or directory: 'missing.csv'")
  /\ Cli.main (example_env (Cli.mkNamespace (Some "missing.csv") None ","))
     = Cli.mkProcess EmptyString
         ("Error: Error occurred while reading CSV file: "
          ++ "[Errno 2] No such file or directory: 'missing.csv'" ++ nl)
         None None 1.
Proof.
  split; [reflexivity |].
  apply (X11_main_read_failure
           (example_env (Cli.mkNamespace (Some "missing.csv") None ","))
           (Cli.mkNamespace (Some "missing.csv") None ",")
           (mkExn (OtherError "FileNotFoundError")
                  "[Errno 2] No such file or directory: 'missing.csv'"));
    reflexivity.
Defined.

(** X12. A parsing failure is not a failure of the program.  When the
    command line is parsed, the input is read and parsing raises, the text
    "An error occurred: ..." goes where the table would have gone: if it
    can be printed, to the standard output with a line feed; with an
    output path that can be opened and written, into that file as it is.
    In both cases nothing goes to the standard error and the exit code
    is 0. *)
Theorem X12_main_parse_failure_exits_0
        (env : Cli.Env) (args : Cli.Namespace) (content : string) (e : exn) :
  Cli.parse_args env = Cli.Parsed args ->
  Cli.source_read args env = Returns content ->
  parsed_rows content (Cli.delimiter args) = Raises e ->
  let report := "An error occurred: " ++ str e in
  (Cli.truthy (Cli.output args) = None ->
   Cli.print_stdout env report = Returns tt ->
   Cli.main env = Cli.mkProcess (report ++ nl) EmptyString None None 0)
  /\ (forall path,
         Cli.truthy (Cli.output args) = Some path ->
         Cli.open_write env path = Returns tt ->
         Cli.write_close env path report = Returns tt ->
         Cli.main env
         = Cli.mkProcess EmptyString EmptyString (Some path)
                         (Some (path, report)) 0).
Proof.
  intros Hargs Hread Hparse report.
  pose proof (csv_to_md_table_raises _ _ _ Hparse) as Hmd. fold report in Hmd.
  unfold Cli.main. rewrite Hargs, (main_try_read_returns _ _ _ _ Hread Hmd).
  split.
  - intros Hout Hprint. now rewrite Hout, Hprint.
  - intros path Hout Hopen Hwrite. now rewrite Hout, Hopen, Hwrite.
Qed.

Lemma X12_witness :
  Cli.source_read (Cli.mkNamespace None None ",,")
                  (example_env (Cli.mkNamespace None None ",,"))
  = Returns ("a;b" ++ nl ++ "1;2")
  /\ parsed_rows ("a;b" ++ nl ++ "1;2") ",," = Raises delimiter_error
  /\ Cli.main (example_env (Cli.mkNamespace None None ",,"))
     = Cli.mkProcess ("An error occurred: " ++ str delimiter_error ++ nl)
                     EmptyString None None 0.
Proof.
  split; [reflexivity |]. split; [reflexivity |].
  apply (proj1 (X12_main_parse_failure_exits_0
                  (example_env (Cli.mkNamespace None None ",,"))
                  (Cli.mkNamespace None None ",,")
                  ("a;b" ++ nl ++ "1;2") delimiter_error
                  eq_refl eq_refl eq_refl));
    reflexivity.
Defined.

(** X13. When [parse_args] leaves the program, [main] does nothing more:
    the texts and the code are those of [parse_args], and no file is
    touched.  When it returns, the exit code is 0 or 1; it is 1 exactly
    when reading the input, printing the result, or opening or writing the
    output file raised, which is exactly when something went to the
    standard error; and then no print to the standard output completed and
    no file was written to its end.  A parsing failure alone never makes
    it 1. *)
Theorem X13_main_exit_code (env : Cli.Env) :
  (forall out err code,
      Cli.parse_args env = Cli.Exits out err code ->
      Cli.main env = Cli.mkProcess out err None None code)
  /\ (forall args,
         Cli.parse_args env = Cli.Parsed args ->
         let p := Cli.main env in
         (Cli.exit_code p = 0 \/ Cli.exit_code p = 1)
         /\ (Cli.exit_code p = 1 <-> Cli.stderr p <> EmptyString)
         /\ (Cli.exit_code p = 1 <-> env_raises args env)
         /\ (Cli.exit_code p = 1 ->
             Cli.stdout p = EmptyString /\ Cli.written p = None)).
Proof.
  split.
  - intros out err code Hexit. unfold Cli.main. now rewrite Hexit.
  - intros args Hargs p. subst p.
    destruct (main_ends args env Hargs)
      as [cause Hread
         | content md Hread Hmd Hout Hprint
         | content md e Hread Hmd Hout Hprint
         | content md path e Hread Hmd Hout Hopen
         | content md path e Hread Hmd Hout Hopen Hwrite
         | content md path Hread Hmd Hout Hopen Hwrite];
      cbn [Cli.exit_code Cli.stderr Cli.stdout Cli.written];
      (split; [auto |]);
      (split; [split; [discriminate || (intros _; discriminate)
                      | reflexivity || congruence] |]).
    + split; [| auto]. split; [| reflexivity]. intros _. left. eauto.
    + split; [| discriminate]. split; [discriminate |].
      intros [(cause & Hc) | (c' & md' & Hc & Hmd' & Hsink)]; [congruence |].
      rewrite Hread in Hc. inversion Hc; subst c'.
      rewrite Hmd in Hmd'. inversion Hmd'; subst md'.
      destruct Hsink as [(_ & e & He) | (path & Hp & _)]; congruence.
    + split; [| auto]. split; [| reflexivity]. intros _. right.
      exists content, md. split; [exact Hread |]. split; [exact Hmd |].
      left. eauto.
    + split; [| auto]. split; [| reflexivity]. intros _. right.
      exists content, md. split; [exact Hread |]. split; [exact Hmd |].
      right. exists path. split; [exact Hout |]. left. eauto.
    + split; [| auto]. split; [| reflexivity]. intros _. right.
      exists content, md. split; [exact Hread |]. split; [exact Hmd |].
      right. exists path. split; [exact Hout |]. right. eauto.
    + split; [| discriminate]. split; [discriminate |].
      intros [(cause & Hc) | (c' & md' & Hc & Hmd' & Hsink)]; [congruence |].
      rewrite Hread in Hc. inversion Hc; subst c'.
      rewrite Hmd in Hmd'. inversion Hmd'; subst md'.
      destruct Hsink as [(Hn & _) | (path' & Hp & Hfail)]; [congruence |].
      rewrite Hout in Hp. inversion Hp; subst path'.
      destruct Hfail as [(e & He) | (_ & e & He)]; congruence.
Qed.

Lemma X13_witness :
  Cli.main (failing_sink_env (Cli.mkNamespace None None ";"))
  = Cli.mkProcess EmptyString
      ("Error: 'ascii' codec can't encode character" ++ nl) None None 1
  /\ (Cli.exit_code (Cli.main (failing_sink_env (Cli.mkNamespace None None ";"))) = 1
      <-> env_raises (Cli.mkNamespace None None ";")
                     (failing_sink_env (Cli.mkNamespace None None ";"))).
Proof.
  split; [reflexivity |].
  apply (proj2 (X13_main_exit_code
                  (failing_sink_env (Cli.mkNamespace None None ";")))
               (Cli.mkNamespace None None ";") eq_refl).
Defined.

(** X14. Once the command line is parsed the result goes to one sink only.
    A file is written to its end only when an output path was given and
    opening and writing it succeeded; it then holds the result of the
    conversion as it is, with no line feed added, nothing is printed and
    the exit code is 0.  A print to the standard output completes only
    when no output path was given, and it prints the result followed by
    one line feed; no file is opened then.  And when the output file was
    opened but is not written to its end, the write has raised and the
    exit code is 1: the file is left created or emptied, without the
    result. *)
Theorem X14_main_one_sink (env : Cli.Env) (args : Cli.Namespace) :
  Cli.parse_args env = Cli.Parsed args ->
  let p := Cli.main env in
  (forall path text,
      Cli.written p = Some (path, text) ->
      Cli.truthy (Cli.output args) = Some path
      /\ Cli.open_write env path = Returns tt
      /\ Cli.write_close env path text = Returns tt
      /\ Cli.truncated p = Some path
      /\ Cli.stdout p = EmptyString
      /\ Cli.stderr p = EmptyString
      /\ Cli.exit_code p = 0
      /\ exists content,
          Cli.source_read args env = Returns content
          /\ csv_to_md_table content (Cli.delimiter args) = Returns text)
  /\ (Cli.stdout p <> EmptyString ->
      Cli.truthy (Cli.output args) = None
      /\ Cli.written p = None
      /\ Cli.truncated p = None
      /\ exists content md,
          Cli.source_read args env = Returns content
          /\ csv_to_md_table content (Cli.delimiter args) = Returns md
          /\ Cli.print_stdout env md = Returns tt
          /\ Cli.stdout p = md ++ nl)
  /\ (forall path,
         Cli.truncated p = Some path ->
         Cli.written p = None ->
         Cli.exit_code p = 1
         /\ Cli.truthy (Cli.output args) = Some path
         /\ Cli.open_write env path = Returns tt
         /\ exists content md e,
             Cli.source_read args env = Returns content
             /\ csv_to_md_table content (Cli.delimiter args) = Returns md
             /\ Cli.write_close env path md = Raises e
             /\ Cli.stderr p = "Error: " ++ str e ++ nl).
Proof.
  intros Hargs p. subst p.
  destruct (main_ends args env Hargs)
    as [cause Hread
       | content md Hread Hmd Hout Hprint
       | content md e Hread Hmd Hout Hprint
       | content md path e Hread Hmd Hout Hopen
       | content md path e Hread Hmd Hout Hopen Hwrite
       | content md path Hread Hmd Hout Hopen Hwrite];
    cbn [Cli.exit_code Cli.stderr Cli.stdout Cli.written Cli.truncated];
    (split; [intros path' text Hwr | split; [intros Hso | intros path' Htr Hwr]]);
    try discriminate; try congruence.
  - repeat (split; [assumption || reflexivity |]).
    exists content, md. auto.
  - inversion Htr; subst path'.
    repeat (split; [assumption || reflexivity |]).
    exists content, md, e. auto.
  - inversion Hwr; subst path' text.
    repeat (split; [assumption || reflexivity |]).
    exists content. auto.
Qed.

Lemma X14_witness :
  Cli.main (failing_sink_env (Cli.mkNamespace (Some "data.csv") (Some "out.md") ","))
  = Cli.mkProcess EmptyString ("Error: [Errno 28] No space left on device" ++ nl)
                  (Some "out.md") None 1
  /\ Cli.written
       (Cli.main (example_env
                    (Cli.mkNamespace (Some "data.csv") (Some "out.md") ",")))
     = Some ("out.md", "| Name | Age |" ++ nl ++ "| --- | --- |" ++ nl
                       ++ "| John | 30 |")
  /\ Cli.stdout
       (Cli.main (example_env
                    (Cli.mkNamespace (Some "data.csv") (Some "out.md") ",")))
     = EmptyString.
Proof.
  split; [reflexivity |]. split; [reflexivity |].
  apply (proj1 (X14_main_one_sink
                  (example_env (Cli.mkNamespace (Some "data.csv") (Some "out.md") ","))
                  (Cli.mkNamespace (Some "data.csv") (Some "out.md") ",")
                  eq_refl)
               "out.md"
               ("| Name | Age |" ++ nl ++ "| --- | --- |" ++ nl ++ "| John | 30 |")).
  reflexivity.
Defined.

(** X15. From file to table.  The command line is parsed and names an
    input file; the text of that file, once its line ends are translated
    as text mode does, is made of rows written as CSV with the delimiter
    of the command line.  Then, if the table of the rows' values can be
    printed, it is printed followed by a line feed and the exit code is 0;
    and with an output path that can be opened and written, the file gets
    exactly the table, nothing is printed and the exit code is 0. *)
Theorem X15_main_converts_file
        (env : Cli.Env) (args : Cli.Namespace)
        (d : ascii) (rs : list (list cell_src)) (c : ascii) (path stored : string) :
  Cli.parse_args env = Cli.Parsed args ->
  Cli.input args = Some (String c path) ->
  Cli.delimiter args = String d EmptyString ->
  Cli.files env (String c path) = Stored stored ->
  universal_newlines stored = rows_text d rs ->
  usual_delimiter d = true ->
  forallb (row_ok d) rs = true ->
  let md_table := md_table_of (map row_values rs) in
  (Cli.truthy (Cli.output args) = None ->
   Cli.print_stdout env md_table = Returns tt ->
   Cli.main env = Cli.mkProcess (md_table ++ nl) EmptyString None None 0)
  /\ (forall out,
         Cli.truthy (Cli.output args) = Some out ->
         Cli.open_write env out = Returns tt ->
         Cli.write_close env out md_table = Returns tt ->
         Cli.main env
         = Cli.mkProcess EmptyString EmptyString (Some out)
                         (Some (out, md_table)) 0).
Proof.
  intros Hargs Hin Hdl Hfile Htext Hd Hrs md_table.
  assert (Hread : Cli.source_read args env = Returns (rows_text d rs)).
  { unfold Cli.source_read, text_mode_open. rewrite Hin. cbn [Cli.truthy].
    now rewrite Hfile, Htext. }
  pose proof (table_of_rows_text d rs Hd Hrs) as Hmd. rewrite <- Hdl in Hmd.
  fold md_table in Hmd.
  unfold Cli.main. rewrite Hargs, (main_try_read_returns _ _ _ _ Hread Hmd).
  split.
  - intros Hout Hprint. now rewrite Hout, Hprint.
  - intros out Hout Hopen Hwrite. now rewrite Hout, Hopen, Hwrite.
Qed.

Lemma X15_witness :
  Cli.files (table_file_env (Cli.mkNamespace (Some "data.csv") None ",")) "data.csv"
  = Stored ("Name,Age" ++ String CR nl ++ "John,30" ++ String CR nl)
  /\ universal_newlines ("Name,Age" ++ String CR nl ++ "John,30" ++ String CR nl)
     = rows_text "," [[Plain "Name"; Plain "Age"]; [Plain "John"; Plain "30"]]
  /\ Cli.main (table_file_env (Cli.mkNamespace (Some "data.csv") None ","))
     = Cli.mkProcess ("| Name | Age |" ++ nl ++ "| --- | --- |" ++ nl
                      ++ "| John | 30 |" ++ nl)
                     EmptyString None None 0.
Proof.
  split; [reflexivity |]. split; [reflexivity |].
  apply (proj1 (X15_main_converts_file
                  (table_file_env (Cli.mkNamespace (Some "data.csv") None ","))
                  (Cli.mkNamespace (Some "data.csv") None ",")
                  "," [[Plain "Name"; Plain "Age"]; [Plain "John"; Plain "30"]]
                  "d" "ata.csv"
                  ("Name,Age" ++ String CR nl ++ "John,30" ++ String CR nl)
                  eq_refl eq_refl eq_refl eq_refl eq_refl eq_refl eq_refl));
    reflexivity.
Defined.

(* ===================================================================== *)
(** ** Claims about parsing *)
(* ===================================================================== *)




(** C9 (as amended). An empty line, ended by a line feed alone or with a
    carriage return before it, that begins where a record begins, after a
    text made of the header and any number of whole records and so not
    inside a quoted field, in an input whose remaining text parses: the
    empty line is read as a record with no cell at all, not as a record
    with one empty cell; padding then makes it a data line of as many
    empty cells as the header has, which for three columns reads
    "|  |  |  |".  This holds for every one-character delimiter. *)
Theorem C9_blank_line_is_empty_row :
  (forall (d : ascii) (pre : string) (h : list string)
          (before : list (list string)) (blank rest : string)
          (rows : list (list string)),
      reads_to d pre (h :: before) ->
      blank = nl \/ blank = String CR nl ->
      parsed_rows rest (String d EmptyString) = Returns rows ->
      let delimiter := String d EmptyString in
      let content := pre ++ blank ++ rest in
      parsed_rows content delimiter
      = Returns (h :: before ++ [] :: rows)%list
      /\ exists data_lines,
          csv_to_md_table content delimiter
          = Returns (join nl (render_line h
                              :: render_line (repeat "---" (length h))
                              :: data_lines))
          /\ nth_error data_lines (length before)
             = Some (render_line (repeat EmptyString (length h))))
  /\ render_line (repeat EmptyString 3) = "|  |  |  |".
Proof.
  split; [| reflexivity].
  intros d pre h before blank rest rows Hpre Hblank Hrest delimiter content.
  assert (Hparse : parsed_rows content delimiter
                   = Returns (h :: before ++ [] :: rows)%list).
  { unfold content, delimiter in *. rewrite parsed_rows_run in Hrest.
    apply (parsed_after_records d pre _ (h :: before) ([] :: rows));
      [exact Hpre |].
    destruct Hblank as [-> | ->]; unfold nl; simpl append.
    - rewrite run_blank_line, Hrest. reflexivity.
    - rewrite run_blank_crlf, Hrest. reflexivity. }
  split; [exact Hparse |].
  assert (Hnth : nth_error (before ++ [] :: rows)%list (length before)
                 = Some (@nil string)).
  { rewrite nth_error_app2 by lia. rewrite Nat.sub_diag. reflexivity. }
  destruct (data_line_at _ _ _ _ _ _ Hparse Hnth) as (lines & Htab & _ & Hline).
  exists lines. split; [exact Htab |].
  rewrite Hline. f_equal. f_equal.
  destruct h as [| c h]; [reflexivity |].
  rewrite normalize_row_short by (simpl; lia).
  simpl. reflexivity.
Qed.

Lemma C9_witness :
  reads_to "," ("Name,Age,City" ++ String CR nl) [["Name"; "Age"; "City"]]
  /\ parsed_rows "Jane,25,Los Angeles" "," = Returns [["Jane"; "25"; "Los Angeles"]]
  /\ parsed_rows ("Name,Age,City" ++ String CR nl ++ String CR nl
                  ++ "Jane,25,Los Angeles") ","
     = Returns [["Name"; "Age"; "City"]; []; ["Jane"; "25"; "Los Angeles"]]
  /\ exists data_lines,
      csv_to_md_table ("Name,Age,City" ++ String CR nl ++ String CR nl
                       ++ "Jane,25,Los Angeles") ","
      = Returns (join nl ("| Name | Age | City |" :: "| --- | --- | --- |"
                          :: data_lines))
      /\ nth_error data_lines 0 = Some "|  |  |  |".
Proof.
  repeat (split; [reflexivity |]).
  apply (proj1 C9_blank_line_is_empty_row
               ","%char ("Name,Age,City" ++ String CR nl)
               ["Name"; "Age"; "City"] [] (String CR nl)
               "Jane,25,Los Angeles" [["Jane"; "25"; "Los Angeles"]]
               eq_refl (or_intror eq_refl) eq_refl).
Defined.

(** An empty line inside a quoted cell is part of the cell and gives no
    empty row; and an empty line in an input that fails further on gives
    no data line at all, since no table is rendered. *)
Lemma C9_counterexample :
  parsed_rows ("a,b" ++ nl ++ dq ++ "x" ++ nl ++ nl ++ "y" ++ dq ++ ",2") ","
  = Returns [["a"; "b"]; ["x" ++ nl ++ nl ++ "y"; "2"]]
  /\ ~ In [] [["a"; "b"]; ["x" ++ nl ++ nl ++ "y"; "2"]]
  /\ csv_to_md_table ("a,b" ++ nl ++ nl ++ "c" ++ String CR "d") ","
     = Returns ("An error occurred: " ++ str newline_error).
Proof.
  split; [reflexivity |]. split; [| reflexivity].
  simpl. intros [H | [H | []]]; discriminate.
Qed.
